(** * The wallet record cache of abcd/Wallet.cpp

    A shallow embedding of the process-wide wallet cache
    ([gaWalletsCacheArray], [gWalletsCacheCount]) and of the operations built
    on it: [ABC_WalletCacheData], [ABC_WalletAddToCache],
    [ABC_WalletGetFromCacheByUUID], [ABC_WalletClearCache],
    [ABC_WalletFreeData], [ABC_WalletSetName] and [ABC_WalletGetInfo].

    Modelling conventions.
    - A [tWalletData*] is an address ([ptr]); the structs live in a heap
      ([gmap ptr tWalletData]), so that the cache array and a caller's
      [pData] alias the same struct, as in the source.
    - [char*] fields are [option string] ([None] is the NULL pointer);
      strings are C strings without an embedded NUL.
    - [tABC_U08Buf] fields are [option (list Byte.byte)].
    - Everything outside Wallet.cpp (account wallet list, hex codec, file
      system, crypto, JSON helpers, balance) is a collaborator: a field of
      [Collaborators], reading or changing an abstract [World].
    - The [ABC_CHECK_*] macros become the binds of a small state-and-error
      monad: a failing status jumps to the [exit:] label with the state
      reached so far.
    - The core mutex is recursive and held during every operation; the
      operations are modelled as atomic state transformers.
    - Memory allocation ([ABC_NEW], [ABC_STRDUP], [ABC_BUF_DUP],
      [ABC_ARRAY_NEW], [ABC_ARRAY_RESIZE]) is modelled as always succeeding,
      and [gWalletsCacheCount] as an unbounded natural number. *)

From Stdlib Require Import ZArith.
From stdpp Require Import gmap strings list fin_maps.

(** ** Status codes *)

(** The enumeration [tABC_CC] is declared in ABC.h; only the members that
    Wallet.cpp and its collaborators produce are listed. *)
Inductive tABC_CC : Type :=
  | ABC_CC_Ok
  | ABC_CC_Error
  | ABC_CC_JSONError
  | ABC_CC_NULLPtr
  | ABC_CC_FileDoesNotExist
  | ABC_CC_FileWriteError
  | ABC_CC_DecryptFailure
  | ABC_CC_EncryptError
  | ABC_CC_ParseError
  | ABC_CC_InvalidWalletID
  | ABC_CC_WalletAlreadyExists.

#[global] Instance tABC_CC_eq_dec : EqDecision tABC_CC.
Proof. solve_decision. Defined.

Inductive tABC_CryptoType : Type :=
  | ABC_CryptoType_AES256.

(** ** Data *)

Definition U08Buf := list Byte.byte.
Definition DataChunk := list Byte.byte.
Definition tABC_U08Buf := option U08Buf.

Definition ptr := nat.
Definition NULL : ptr := 0.

(** [struct WalletJson]: the three string fields read with
    [ABC_JSON_STRING]; [None] is an absent (or non-string) field. *)
Record WalletJson : Type := mkWalletJson {
  dataKey : option string;      (* "MK" *)
  syncKey : option string;      (* "SyncKey" *)
  bitcoinKey : option string    (* "BitcoinSeed" *)
}.

(** [nameOk()] of [ABC_JSON_STRING]: a JSON error unless the field is a
    string. *)
Definition jsonStringOk (field : option string) : tABC_CC :=
  match field with
  | Some _ => ABC_CC_Ok
  | None => ABC_CC_JSONError
  end.

(** [name()] of [ABC_JSON_STRING], read after [nameOk()] succeeded. *)
Definition jsonString (field : option string) : string :=
  default ""%string field.

(** [tWalletData] (Wallet.cpp, lines 66-74). *)
Record tWalletData : Type := mkWalletData {
  szUUID : option string;
  szName : option string;
  szWalletAcctKey : option string;
  currencyNum : Z;
  MK : tABC_U08Buf;
  BitcoinPrivateSeed : tABC_U08Buf
}.

(** A struct as [ABC_NEW] leaves it: all bytes zero. *)
Definition zeroWalletData : tWalletData :=
  mkWalletData None None None 0 None None.

Definition set_szUUID (v : option string) (d : tWalletData) : tWalletData :=
  mkWalletData v (szName d) (szWalletAcctKey d) (currencyNum d) (MK d)
    (BitcoinPrivateSeed d).
Definition set_szName (v : option string) (d : tWalletData) : tWalletData :=
  mkWalletData (szUUID d) v (szWalletAcctKey d) (currencyNum d) (MK d)
    (BitcoinPrivateSeed d).
Definition set_szWalletAcctKey (v : option string) (d : tWalletData)
  : tWalletData :=
  mkWalletData (szUUID d) (szName d) v (currencyNum d) (MK d)
    (BitcoinPrivateSeed d).
Definition set_currencyNum (v : Z) (d : tWalletData) : tWalletData :=
  mkWalletData (szUUID d) (szName d) (szWalletAcctKey d) v (MK d)
    (BitcoinPrivateSeed d).
Definition set_MK (v : tABC_U08Buf) (d : tWalletData) : tWalletData :=
  mkWalletData (szUUID d) (szName d) (szWalletAcctKey d) (currencyNum d) v
    (BitcoinPrivateSeed d).
Definition set_BitcoinPrivateSeed (v : tABC_U08Buf) (d : tWalletData)
  : tWalletData :=
  mkWalletData (szUUID d) (szName d) (szWalletAcctKey d) (currencyNum d)
    (MK d) v.

(** [ABC_BUF_DUP(dst, src)] (a macro of util/U08Buf.hpp): a source of
    positive size is copied into a new buffer; for an empty source the
    macro does nothing and the destination keeps the value it had. *)
Definition ABC_BUF_DUP (dst : tABC_U08Buf) (src : DataChunk) : tABC_U08Buf :=
  match src with
  | [] => dst
  | _ :: _ => Some src
  end.

Arguments ABC_BUF_DUP : simpl never.

(** [tABC_WalletInfo] (declared in ABC.h): the fields that
    [ABC_WalletGetInfo] fills. *)
Record tABC_WalletInfo : Type := mkWalletInfo {
  info_szUUID : option string;
  info_szName : option string;
  info_currencyNum : Z;
  info_archived : bool;
  info_balanceSatoshi : Z
}.

Definition zeroWalletInfo : tABC_WalletInfo :=
  mkWalletInfo None None 0 false 0.

(** The [Wallet] object: what Wallet.cpp reads from [self] directly. *)
Record Wallet : Type := mkWallet {
  id : string;
  syncDir : string
}.

Definition WALLET_NAME_FILENAME : string := "WalletName.json".
Definition WALLET_CURRENCY_FILENAME : string := "Currency.json".
Definition JSON_WALLET_NAME_FIELD : string := "walletName".
Definition JSON_WALLET_CURRENCY_NUM_FIELD : string := "num".

(** The buffer handed to the encryption call: the [strlen(szJSON) + 1]
    bytes of [szJSON], that is its characters and the terminating NUL. *)
Definition jsonBuf (szJSON : string) : U08Buf :=
  String.list_byte_of_string szJSON ++ [Byte.x00].

Section WalletCache.

Context {World : Type}.

(** ** Collaborators

    Each returns its status code together with its out-parameter; the
    out-parameter is meaningful only when the code is [ABC_CC_Ok]. *)
Record Collaborators : Type := mkCollaborators {
  (* self.account.wallets.json(json, id) *)
  wallets_json : World → string → tABC_CC * WalletJson;
  (* self.account.wallets.archived(archived, id) *)
  wallets_archived : World → string → tABC_CC * bool;
  (* self.balance(result) *)
  wallet_balance : World → string → tABC_CC * Z;
  base16Decode : string → tABC_CC * DataChunk;
  fileExists : World → string → bool;
  ABC_CryptoDecryptJSONFile :
    World → string → tABC_U08Buf → tABC_CC * U08Buf;
  ABC_CryptoEncryptJSONFile :
    World → U08Buf → tABC_U08Buf → tABC_CryptoType → string →
    tABC_CC * World;
  ABC_UtilGetStringValueFromJSONString :
    U08Buf → string → tABC_CC * string;
  ABC_UtilGetIntValueFromJSONString :
    U08Buf → string → tABC_CC * Z;
  ABC_UtilCreateValueJSONString :
    string → string → tABC_CC * string
}.

(** ** Program state *)

Record State : Type := mkState {
  heap : gmap ptr tWalletData;
  gWalletsCacheCount : nat;
  gaWalletsCacheArray : option (list ptr);
  world : World
}.

(** The state at process start: [gWalletsCacheCount = 0],
    [gaWalletsCacheArray = NULL]. *)
Definition initial (w : World) : State := mkState ∅ 0 None w.

Definition upd_heap (f : gmap ptr tWalletData → gmap ptr tWalletData)
    (s : State) : State :=
  mkState (f (heap s)) (gWalletsCacheCount s) (gaWalletsCacheArray s)
    (world s).

Definition set_world (w : World) (s : State) : State :=
  mkState (heap s) (gWalletsCacheCount s) (gaWalletsCacheArray s) w.

(** The address [ABC_NEW] hands out: unused and not NULL. *)
Definition malloc (h : gmap ptr tWalletData) : ptr :=
  fresh ({[NULL]} ∪ dom h).

(** [pData->szUUID]; reading through a dangling pointer is undefined in the
    source and yields [None] here. *)
Definition uuid_at (h : gmap ptr tWalletData) (p : ptr) : option string :=
  h !! p ≫= szUUID.

(** The struct behind [pData]. *)
Definition deref (h : gmap ptr tWalletData) (p : ptr) : tWalletData :=
  default zeroWalletData (h !! p).

(** ** The state-and-error monad of the ABC_CHECK macros *)

Definition M (A : Type) : Type := State → (tABC_CC + A) * State.

Definition ret {A} (a : A) : M A := λ s, (inr a, s).

Definition bind {A B} (m : M A) (k : A → M B) : M B :=
  λ s, match m s with
       | (inl cc, s') => (inl cc, s')
       | (inr a, s') => k a s'
       end.

(** [ABC_CHECK_RET] / [ABC_CHECK_NEW]: run the call, keep its state, and
    jump to [exit:] unless it reported [ABC_CC_Ok]. *)
Definition ABC_CHECK {A} (call : State → tABC_CC * A * State) : M A :=
  λ s, let '(cc, a, s') := call s in
       if decide (cc = ABC_CC_Ok) then (inr a, s') else (inl cc, s').

(** A call that only reads the world. *)
Definition reading {A} (f : World → tABC_CC * A)
    : State → tABC_CC * A * State :=
  λ s, (f (world s), s).

(** A status with no out-parameter. *)
Definition status (cc : tABC_CC) : State → tABC_CC * unit * State :=
  λ s, (cc, tt, s).

(** An assignment through [pData]. *)
Definition assign (p : ptr) (f : tWalletData → tWalletData) : M unit :=
  λ s, (inr tt, upd_heap (alter f p) s).

(** Reading the struct behind [pData]. *)
Definition load (p : ptr) : M tWalletData :=
  λ s, (inr (deref (heap s) p), s).

Definition getWorld : M World := λ s, (inr (world s), s).

End WalletCache.

Arguments Collaborators : clear implicits.
Arguments State : clear implicits.
Arguments M : clear implicits.

Notation "'do' x <- m ;; k" := (bind m (λ x, k))
  (at level 10, x name, m at level 99, k at level 200,
   format "'[v' 'do'  x  <-  m  ;; '/' k ']'").
Notation "'exec' m ;; k" := (bind m (λ _, k))
  (at level 10, m at level 99, k at level 200,
   format "'[v' 'exec'  m  ;; '/' k ']'").

(** ** The operations of Wallet.cpp *)

Section Operations.

Context {World : Type} (E : Collaborators World).

(** The loop of [ABC_WalletGetFromCacheByUUID] (lines 305-314) over the
    first [gWalletsCacheCount] entries: the first entry whose UUID compares
    equal, or NULL. *)
Fixpoint scanCache (h : gmap ptr tWalletData) (szUUID : string)
    (entries : list ptr) : ptr :=
  match entries with
  | [] => NULL
  | pData :: rest =>
      if decide (uuid_at h pData = Some szUUID) then pData
      else scanCache h szUUID rest
  end.

(** [ABC_WalletGetFromCacheByUUID] (lines 293-320); the result pair is
    the status code and [*ppData]. *)
Definition ABC_WalletGetFromCacheByUUID (szUUID : option string)
    (s : State World) : tABC_CC * ptr :=
  match szUUID with
  | None => (ABC_CC_NULLPtr, NULL)
  | Some u =>
      match gaWalletsCacheArray s with
      | Some arr =>
          if decide (0 < gWalletsCacheCount s)
          then (ABC_CC_Ok, scanCache (heap s) u (take (gWalletsCacheCount s) arr))
          else (ABC_CC_Ok, NULL)
      | None => (ABC_CC_Ok, NULL)
      end
  end.

(** [ABC_WalletAddToCache] (lines 249-286). *)
Definition ABC_WalletAddToCache (pData : ptr) (s : State World)
    : tABC_CC * unit * State World :=
  if decide (pData = NULL) then (ABC_CC_NULLPtr, tt, s)
  else
    let '(cc, pExistingWalletData) :=
      ABC_WalletGetFromCacheByUUID (uuid_at (heap s) pData) s in
    if decide (cc = ABC_CC_Ok) then
      if decide (pExistingWalletData = NULL) then
        let '(count, arr) :=
          match gaWalletsCacheArray s with
          | Some arr =>
              if decide (gWalletsCacheCount s = 0)
              then (0, replicate 1 NULL)
              else (gWalletsCacheCount s,
                    resize (gWalletsCacheCount s + 1) NULL arr)
          | None => (0, replicate 1 NULL)
          end in
        (ABC_CC_Ok, tt,
         mkState (heap s) (count + 1) (Some (<[count := pData]> arr))
           (world s))
      else (ABC_CC_WalletAlreadyExists, tt, s)
    else (cc, tt, s).

(** [ABC_WalletFreeData] (lines 326-340), as a change of the heap: the
    strings and buffers are released and their pointers reset;
    [szWalletAcctKey] is left as it is. *)
Definition freedWalletData (d : tWalletData) : tWalletData :=
  mkWalletData None None (szWalletAcctKey d) (-1) None None.

Definition ABC_WalletFreeData (pData : ptr)
    (h : gmap ptr tWalletData) : gmap ptr tWalletData :=
  if decide (pData = NULL) then h else alter freedWalletData pData h.

(** [ABC_WalletClearCache] (lines 228-243): every entry is passed to
    [ABC_WalletFreeData]; the structs themselves are not freed. [ABC_FREE]
    releases the array and resets the pointer. *)
Definition ABC_WalletClearCache (s : State World) : State World :=
  match gaWalletsCacheArray s with
  | Some arr =>
      if decide (0 < gWalletsCacheCount s)
      then mkState
             (foldl (λ h pData, ABC_WalletFreeData pData h) (heap s)
                (take (gWalletsCacheCount s) arr))
             0 None (world s)
      else s
  | None => s
  end.

(** The body of the [else] branch of [ABC_WalletCacheData] after the
    struct has been allocated (lines 154-206): resolve the key material,
    read the name and the currency, add the struct to the cache. *)
Definition ABC_WalletCacheData_fill (self : Wallet) (pData : ptr)
    : M World unit :=
  do json <- ABC_CHECK (reading (λ w, wallets_json E w (id self))) ;;
  exec ABC_CHECK (status (jsonStringOk (dataKey json))) ;;
  do dataKey <- ABC_CHECK (reading (λ _, base16Decode E (jsonString (dataKey json)))) ;;
  exec assign pData (λ d, set_MK (ABC_BUF_DUP (MK d) dataKey) d) ;;
  exec ABC_CHECK (status (jsonStringOk (bitcoinKey json))) ;;
  do bitcoinKey <- ABC_CHECK (reading (λ _, base16Decode E (jsonString (bitcoinKey json)))) ;;
  exec assign pData (λ d, set_BitcoinPrivateSeed
                            (ABC_BUF_DUP (BitcoinPrivateSeed d) bitcoinKey) d) ;;
  exec ABC_CHECK (status (jsonStringOk (syncKey json))) ;;
  exec assign pData (set_szWalletAcctKey (Some (jsonString (syncKey json)))) ;;
  do w <- getWorld ;;
  exec (if negb (fileExists E w (syncDir self)) then
          exec assign pData (set_szName (Some ""%string)) ;;
          assign pData (set_currencyNum (-1))
        else
          exec (let path := String.append (syncDir self) WALLET_NAME_FILENAME in
                if fileExists E w path then
                  do d <- load pData ;;
                  do Data <- ABC_CHECK (reading (λ w, ABC_CryptoDecryptJSONFile E w path (MK d))) ;;
                  do szName <- ABC_CHECK (reading (λ _,
                      ABC_UtilGetStringValueFromJSONString E Data JSON_WALLET_NAME_FIELD)) ;;
                  assign pData (set_szName (Some szName))
                else assign pData (set_szName (Some ""%string))) ;;
          (let path := String.append (syncDir self) WALLET_CURRENCY_FILENAME in
           if fileExists E w path then
             do d <- load pData ;;
             do Data <- ABC_CHECK (reading (λ w, ABC_CryptoDecryptJSONFile E w path (MK d))) ;;
             do num <- ABC_CHECK (reading (λ _,
                 ABC_UtilGetIntValueFromJSONString E Data JSON_WALLET_CURRENCY_NUM_FIELD)) ;;
             assign pData (set_currencyNum num)
           else assign pData (set_currencyNum (-1)))) ;;
  ABC_CHECK (ABC_WalletAddToCache pData).

(** The [else] branch of [ABC_WalletCacheData] together with the [exit:]
    block (lines 146-222): allocate the struct, fill it, and on any failure
    free it again. The result triple is the status code, [*ppData] (NULL
    when it is not assigned) and the state. *)
Definition ABC_WalletCacheData_populate (self : Wallet) (s : State World)
    : tABC_CC * ptr * State World :=
  let pData := malloc (heap s) in
  let s1 := upd_heap <[pData := set_szUUID (Some (id self)) zeroWalletData]> s in
  match ABC_WalletCacheData_fill self pData s1 with
  | (inr _, s2) => (ABC_CC_Ok, pData, s2)
  | (inl cc, s2) =>
      (cc, NULL, upd_heap (λ h, delete pData (ABC_WalletFreeData pData h)) s2)
  end.

(** [ABC_WalletCacheData] (lines 124-223). *)
Definition ABC_WalletCacheData (self : Wallet) (s : State World)
    : tABC_CC * ptr * State World :=
  let '(cc, pData) := ABC_WalletGetFromCacheByUUID (Some (id self)) s in
  if decide (cc = ABC_CC_Ok) then
    if decide (pData ≠ NULL) then (ABC_CC_Ok, pData, s)
    else ABC_WalletCacheData_populate self s
  else (cc, NULL, s).

(** [ABC_WalletSetName] (lines 88-117). *)
Definition ABC_WalletSetName_body (self : Wallet) (szName : string)
    : M World unit :=
  do pData <- ABC_CHECK (ABC_WalletCacheData self) ;;
  exec assign pData (set_szName (Some szName)) ;;
  do szJSON <- ABC_CHECK (reading (λ _,
      ABC_UtilCreateValueJSONString E szName JSON_WALLET_NAME_FIELD)) ;;
  let path := String.append (syncDir self) WALLET_NAME_FILENAME in
  do d <- load pData ;;
  ABC_CHECK (λ s,
    let '(cc, w') :=
      ABC_CryptoEncryptJSONFile E (world s) (jsonBuf szJSON) (MK d)
        ABC_CryptoType_AES256 path in
    (cc, tt, set_world w' s)).

Definition ABC_WalletSetName (self : Wallet) (szName : string)
    (s : State World) : tABC_CC * State World :=
  match ABC_WalletSetName_body self szName s with
  | (inr _, s') => (ABC_CC_Ok, s')
  | (inl cc, s') => (cc, s')
  end.

(** [ABC_WalletGetInfo] (lines 351-389). The second component is
    [*ppWalletInfo]: [None] when the function does not assign it. *)
Definition ABC_WalletGetInfo_body (self : Wallet) : M World tABC_WalletInfo :=
  do pData <- ABC_CHECK (ABC_WalletCacheData self) ;;
  do d <- load pData ;;
  let pInfo := zeroWalletInfo in
  let pInfo := mkWalletInfo (Some (id self)) (info_szName pInfo)
                 (info_currencyNum pInfo) (info_archived pInfo)
                 (info_balanceSatoshi pInfo) in
  let pInfo := match szName d with
               | Some n => mkWalletInfo (info_szUUID pInfo) (Some n)
                             (info_currencyNum pInfo) (info_archived pInfo)
                             (info_balanceSatoshi pInfo)
               | None => pInfo
               end in
  let pInfo := mkWalletInfo (info_szUUID pInfo) (info_szName pInfo)
                 (currencyNum d) (info_archived pInfo)
                 (info_balanceSatoshi pInfo) in
  do archived <- ABC_CHECK (reading (λ w, wallets_archived E w (id self))) ;;
  let pInfo := mkWalletInfo (info_szUUID pInfo) (info_szName pInfo)
                 (info_currencyNum pInfo) archived
                 (info_balanceSatoshi pInfo) in
  do balance <- ABC_CHECK (reading (λ w, wallet_balance E w (id self))) ;;
  let pInfo := mkWalletInfo (info_szUUID pInfo) (info_szName pInfo)
                 (info_currencyNum pInfo) (info_archived pInfo) balance in
  ret pInfo.

Definition ABC_WalletGetInfo (self : Wallet) (s : State World)
    : tABC_CC * option tABC_WalletInfo * State World :=
  match ABC_WalletGetInfo_body self s with
  | (inr pInfo, s') => (ABC_CC_Ok, Some pInfo, s')
  | (inl cc, s') => (cc, None, s')
  end.

End Operations.

(** ** Notions used to state the properties *)

Section Notions.

Context {World : Type} (E : Collaborators World).

(** The cache entries: the first [gWalletsCacheCount] slots of
    [gaWalletsCacheArray]. *)
Definition entries (s : State World) : list ptr :=
  match gaWalletsCacheArray s with
  | Some arr => take (gWalletsCacheCount s) arr
  | None => []
  end.

(** The UUID string held by entry [i] of the cache array. *)
Definition cacheUUID (s : State World) (i : nat) : option string :=
  entries s !! i ≫= uuid_at (heap s).

(** A struct whose three strings are set. (The two key buffers are set
    as well unless the account's hex key decodes to no bytes, see
    [ABC_BUF_DUP].) *)
Definition populated (d : tWalletData) : Prop :=
  is_Some (szUUID d) ∧ is_Some (szName d) ∧ is_Some (szWalletAcctKey d).

(** The representation invariant of the cache: the array and its count
    agree, every entry points to a live struct with its strings set, and
    no UUID occurs twice. *)
Record cache_wf (s : State World) : Prop := mkCacheWf {
  wf_null : heap s !! NULL = None;
  wf_array :
    match gaWalletsCacheArray s with
    | Some arr => length arr = gWalletsCacheCount s ∧ 0 < gWalletsCacheCount s
    | None => gWalletsCacheCount s = 0
    end;
  wf_entries :
    ∀ p, p ∈ entries s → ∃ d, heap s !! p = Some d ∧ populated d;
  wf_nodup : NoDup (uuid_at (heap s) <$> entries s)
}.

(** The identity [uuid] has an entry in the cache, namely [p]. *)
Definition cached (s : State World) (uuid : string) (p : ptr) : Prop :=
  ABC_WalletGetFromCacheByUUID (Some uuid) s = (ABC_CC_Ok, p) ∧ p ≠ NULL.

(** The identity [uuid] has no entry in the cache. *)
Definition uncached (s : State World) (uuid : string) : Prop :=
  ABC_WalletGetFromCacheByUUID (Some uuid) s = (ABC_CC_Ok, NULL).

(** *** What a load reads, as functions of the world

    The steps of record population written as the design describes them:
    key-material resolution, then one independent read per metadata
    file. They are compared with [ABC_WalletCacheData_fill] below. *)

(** Key material: the wallet's entry of the account's list, with its
    three fields present and the two keys decoded from hex. *)
Definition resolveKeys (self : Wallet) (w : World)
    : tABC_CC + (DataChunk * DataChunk * string) :=
  let '(cc, json) := wallets_json E w (id self) in
  if decide (cc = ABC_CC_Ok) then
    match dataKey json with
    | None => inl ABC_CC_JSONError
    | Some dk =>
        let '(cc, mk) := base16Decode E dk in
        if decide (cc = ABC_CC_Ok) then
          match bitcoinKey json with
          | None => inl ABC_CC_JSONError
          | Some bk =>
              let '(cc, seed) := base16Decode E bk in
              if decide (cc = ABC_CC_Ok) then
                match syncKey json with
                | None => inl ABC_CC_JSONError
                | Some sk => inr (mk, seed, sk)
                end
              else inl cc
          end
        else inl cc
    end
  else inl cc.

(** The name field: the decrypted and parsed name file when the file
    exists, the empty string when it does not. *)
Definition loadName (self : Wallet) (w : World) (mk : tABC_U08Buf)
    : tABC_CC + string :=
  let path := String.append (syncDir self) WALLET_NAME_FILENAME in
  if fileExists E w path then
    let '(cc, Data) := ABC_CryptoDecryptJSONFile E w path mk in
    if decide (cc = ABC_CC_Ok) then
      let '(cc, name) :=
        ABC_UtilGetStringValueFromJSONString E Data JSON_WALLET_NAME_FIELD in
      if decide (cc = ABC_CC_Ok) then inr name else inl cc
    else inl cc
  else inr ""%string.

(** The currency field: the decrypted and parsed currency file when the
    file exists, -1 when it does not. *)
Definition loadCurrency (self : Wallet) (w : World) (mk : tABC_U08Buf)
    : tABC_CC + Z :=
  let path := String.append (syncDir self) WALLET_CURRENCY_FILENAME in
  if fileExists E w path then
    let '(cc, Data) := ABC_CryptoDecryptJSONFile E w path mk in
    if decide (cc = ABC_CC_Ok) then
      let '(cc, num) :=
        ABC_UtilGetIntValueFromJSONString E Data JSON_WALLET_CURRENCY_NUM_FIELD in
      if decide (cc = ABC_CC_Ok) then inr num else inl cc
    else inl cc
  else inr (-1)%Z.

(** Name and currency: the defaults when the sync directory is missing,
    the two files otherwise, the name first. *)
Definition loadMetadata (self : Wallet) (w : World) (mk : tABC_U08Buf)
    : tABC_CC + (string * Z) :=
  if negb (fileExists E w (syncDir self)) then inr (""%string, (-1)%Z)
  else
    match loadName self w mk with
    | inl cc => inl cc
    | inr name =>
        match loadCurrency self w mk with
        | inl cc => inl cc
        | inr num => inr (name, num)
        end
    end.

(** The record a load of [self] builds from the world [w]. *)
Definition loadRecord (self : Wallet) (w : World) : tABC_CC + tWalletData :=
  match resolveKeys self w with
  | inl cc => inl cc
  | inr (mk, seed, sk) =>
      match loadMetadata self w (ABC_BUF_DUP None mk) with
      | inl cc => inl cc
      | inr (name, num) =>
          inr (mkWalletData (Some (id self)) (Some name) (Some sk) num
                 (ABC_BUF_DUP None mk) (ABC_BUF_DUP None seed))
      end
  end.

(** *** Sequences of operations *)

Inductive Op : Type :=
  | GetOrLoad (self : Wallet)
  | SetName (self : Wallet) (szName : string)
  | GetInfo (self : Wallet)
  | ClearCache.

Definition step (op : Op) (s : State World) : State World :=
  match op with
  | GetOrLoad self => (ABC_WalletCacheData E self s).2
  | SetName self szName => (ABC_WalletSetName E self szName s).2
  | GetInfo self => (ABC_WalletGetInfo E self s).2
  | ClearCache => ABC_WalletClearCache s
  end.

Definition runOps (ops : list Op) (s : State World) : State World :=
  foldl (λ s op, step op s) s ops.

(** The reading of the add-if-absent step under which a populate attempt
    that meets an existing entry succeeds and hands back that entry. *)
Definition populateReturnsExisting (self : Wallet) (s : State World)
    : Prop :=
  ∀ p, cached s (id self) p →
       ∃ s', ABC_WalletCacheData_populate E self s = (ABC_CC_Ok, p, s').

(** The reading of a cache clear under which every cached record is
    destroyed: no struct that was an entry is left in the heap. *)
Definition clearDestroysRecords (s : State World) : Prop :=
  ∀ q, q ∈ entries s → heap (ABC_WalletClearCache s) !! q = None.

(** The reading of a reload under which, for an identity that was loaded
    in [s0] and is still cached in [s], a load after clearing [s] yields a
    record equal to the one of the earlier load, whatever happened in
    between. *)
Definition reloadEqualsEarlierLoad (self : Wallet) (s0 s : State World)
    : Prop :=
  ∀ p1 s1,
    uncached s0 (id self) →
    ABC_WalletCacheData E self s0 = (ABC_CC_Ok, p1, s1) →
    cached s (id self) p1 →
    ∃ p2 s3,
      ABC_WalletCacheData E self (ABC_WalletClearCache s)
      = (ABC_CC_Ok, p2, s3) ∧
      heap s3 !! p2 = heap s1 !! p1.

End Notions.

(** ** A concrete world

    A small file system and account, with stand-ins for the collaborators:
    a file is kept as the key it was written under and its plaintext, so
    that reading it back with another key fails; a write succeeds only
    below an existing directory; the JSON helpers handle the one-field
    documents [field=value]. It serves to run the operations on concrete
    inputs. *)

Module Demo.

Record Disk : Type := mkDisk {
  dirs : list string;
  files : list (string * (U08Buf * U08Buf));
  accountWallets : list (string * (WalletJson * bool));
  balances : list (string * Z)
}.

Fixpoint assoc {A} (k : string) (l : list (string * A)) : option A :=
  match l with
  | [] => None
  | (k', v) :: rest => if decide (k = k') then Some v else assoc k rest
  end.

Definition hexDigit (c : Ascii.ascii) : option N :=
  let n := Ascii.N_of_ascii c in
  if decide (48 ≤ n ∧ n ≤ 57)%N then Some (n - 48)%N
  else if decide (65 ≤ n ∧ n ≤ 70)%N then Some (n - 55)%N
  else if decide (97 ≤ n ∧ n ≤ 102)%N then Some (n - 87)%N
  else None.

Fixpoint hexDecode (s : string) : option (list Byte.byte) :=
  match s with
  | EmptyString => Some []
  | String hi (String lo rest) =>
      match hexDigit hi, hexDigit lo, hexDecode rest with
      | Some a, Some b, Some bs =>
          match Byte.of_N (16 * a + b) with
          | Some x => Some (x :: bs)
          | None => None
          end
      | _, _, _ => None
      end
  | String _ EmptyString => None
  end.

Definition sameBytes (a b : list Byte.byte) : bool :=
  bool_decide (Byte.to_N <$> a = Byte.to_N <$> b).

Fixpoint cString (b : list Byte.byte) : list Byte.byte :=
  match b with
  | [] => []
  | x :: rest => if sameBytes [x] [Byte.x00] then [] else x :: cString rest
  end.

Fixpoint stripPrefix (p s : string) : option string :=
  match p, s with
  | EmptyString, _ => Some s
  | String a p', String b s' =>
      if decide (a = b) then stripPrefix p' s' else None
  | String _ _, EmptyString => None
  end.

Definition fieldValue (Data : U08Buf) (field : string) : option string :=
  stripPrefix (String.append field "=") (String.string_of_list_byte (cString Data)).

Fixpoint decimal (acc : Z) (s : string) : option Z :=
  match s with
  | EmptyString => Some acc
  | String c rest =>
      let n := Ascii.N_of_ascii c in
      if decide (48 ≤ n ∧ n ≤ 57)%N
      then decimal (10 * acc + Z.of_N (n - 48)) rest
      else None
  end.

Definition collaborators : Collaborators Disk := {|
  wallets_json w uuid :=
    match assoc uuid (accountWallets w) with
    | Some (json, _) => (ABC_CC_Ok, json)
    | None => (ABC_CC_InvalidWalletID, mkWalletJson None None None)
    end;
  wallets_archived w uuid :=
    match assoc uuid (accountWallets w) with
    | Some (_, archived) => (ABC_CC_Ok, archived)
    | None => (ABC_CC_InvalidWalletID, false)
    end;
  wallet_balance w uuid :=
    match assoc uuid (balances w) with
    | Some b => (ABC_CC_Ok, b)
    | None => (ABC_CC_Error, 0%Z)
    end;
  base16Decode s :=
    match hexDecode s with
    | Some b => (ABC_CC_Ok, b)
    | None => (ABC_CC_ParseError, [])
    end;
  fileExists w path :=
    bool_decide (path ∈ dirs w) || bool_decide (is_Some (assoc path (files w)));
  ABC_CryptoDecryptJSONFile w path key :=
    match assoc path (files w), key with
    | Some (k, plain), Some k' =>
        if sameBytes k k' then (ABC_CC_Ok, plain)
        else (ABC_CC_DecryptFailure, [])
    | Some _, None => (ABC_CC_NULLPtr, [])
    | None, _ => (ABC_CC_FileDoesNotExist, [])
    end;
  ABC_CryptoEncryptJSONFile w Data key _ path :=
    match key with
    | Some k =>
        if existsb (λ d, bool_decide (is_Some (stripPrefix d path))) (dirs w)
        then (ABC_CC_Ok,
              mkDisk (dirs w) ((path, (k, Data)) :: files w)
                (accountWallets w) (balances w))
        else (ABC_CC_FileWriteError, w)
    | None => (ABC_CC_NULLPtr, w)
    end;
  ABC_UtilGetStringValueFromJSONString Data field :=
    match fieldValue Data field with
    | Some v => (ABC_CC_Ok, v)
    | None => (ABC_CC_JSONError, ""%string)
    end;
  ABC_UtilGetIntValueFromJSONString Data field :=
    match fieldValue Data field ≫= decimal 0 with
    | Some v => (ABC_CC_Ok, v)
    | None => (ABC_CC_JSONError, 0%Z)
    end;
  ABC_UtilCreateValueJSONString value field :=
    (ABC_CC_Ok, String.append field (String.append "=" value))
|}.

(** Wallet "W1" of an account whose list knows it, with no sync directory
    on disk yet. *)
Definition W1 : Wallet := mkWallet "W1" "sync/W1/".
Definition W1json : WalletJson :=
  mkWalletJson (Some "AA11"%string) (Some "sync1"%string) (Some "BB22"%string).

Definition disk0 : Disk :=
  mkDisk [] [] [("W1"%string, (W1json, false))] [("W1"%string, 5000%Z)].

(** Wallet "W2": sync directory and name file present, no currency file. *)
Definition W2 : Wallet := mkWallet "W2" "sync/W2/".
Definition W2json : WalletJson :=
  mkWalletJson (Some "0102"%string) (Some "sync2"%string) (Some "0a0B"%string).
Definition key2 : U08Buf := [Byte.x01; Byte.x02].

Definition disk2 : Disk :=
  mkDisk ["sync/W2/"%string]
    [("sync/W2/WalletName.json"%string, (key2, jsonBuf "walletName=Savings"))]
    [("W2"%string, (W2json, true)); ("W1"%string, (W1json, false))]
    [("W2"%string, 120%Z); ("W1"%string, 5000%Z)].

(** Wallet "W3": its data key is not valid hex. *)
Definition W3 : Wallet := mkWallet "W3" "sync/W3/".
Definition disk3 : Disk :=
  mkDisk [] []
    [("W3"%string,
      (mkWalletJson (Some "XY"%string) (Some "s"%string) (Some "00"%string), false))]
    [].

(** Wallet "W2" on a disk whose transaction data is missing, so that its
    balance cannot be computed. *)
Definition disk2nb : Disk :=
  mkDisk (dirs disk2) (files disk2) (accountWallets disk2) [].

(** The state after wallet "W2" has been loaded from [disk2]. *)
Definition loaded2 : State Disk :=
  (ABC_WalletCacheData collaborators W2 (initial disk2)).2.

(** The state after wallet "W2", loaded from [disk2], has been renamed. *)
Definition renamed2 : State Disk :=
  (ABC_WalletSetName collaborators W2 "New" loaded2).2.

(** The state after wallets "W2" and then "W1" have been loaded from
    [disk2]. *)
Definition loaded21 : State Disk :=
  (ABC_WalletCacheData collaborators W1 loaded2).2.

(** A struct for wallet "W9" that sits in the heap and is not cached. *)
Definition orphan : tWalletData :=
  mkWalletData (Some "W9"%string) (Some "n"%string) (Some "k"%string) 0
    (Some [Byte.x01]) (Some [Byte.x02]).

Definition withOrphan : State Disk :=
  upd_heap <[7 := orphan]> loaded2.

End Demo.

Import Demo.


(** * Properties *)

Section Properties.

Context {World : Type}.
Implicit Types (s : State World) (h : gmap ptr tWalletData) (p q : ptr).
Implicit Types (E : Collaborators World) (self : Wallet).

(** ** Heap and state bookkeeping *)

Lemma malloc_fresh h : h !! malloc h = None.
Proof.
  unfold malloc. apply not_elem_of_dom.
  pose proof (is_fresh ({[NULL]} ∪ dom h)) as Hf. set_solver.
Qed.

Lemma malloc_not_NULL h : malloc h ≠ NULL.
Proof.
  unfold malloc. pose proof (is_fresh ({[NULL]} ∪ dom h)) as Hf. set_solver.
Qed.

Lemma state_eta s :
  mkState (heap s) (gWalletsCacheCount s) (gaWalletsCacheArray s) (world s) = s.
Proof. by destruct s. Qed.

Lemma upd_heap_insert_id s p d :
  heap s !! p = Some d → upd_heap <[p := d]> s = s.
Proof.
  intros Hp. destruct s as [h c a w]; unfold upd_heap; simpl in *.
  by rewrite insert_id.
Qed.

Lemma assign_insert p f d s :
  assign p f (upd_heap <[p := d]> s) = (inr tt, upd_heap <[p := f d]> s).
Proof.
  unfold assign, upd_heap; simpl. do 2 f_equal.
  apply map_eq; intros i. rewrite lookup_alter.
  destruct (decide (p = i)) as [->|Hne].
  - by rewrite !lookup_insert_eq.
  - by rewrite !lookup_insert_ne.
Qed.

Lemma load_insert p d s :
  load p (upd_heap <[p := d]> s) = (inr d, upd_heap <[p := d]> s).
Proof. unfold load, deref, upd_heap; simpl. by rewrite lookup_insert_eq. Qed.

Lemma free_fresh p d s :
  heap s !! p = None →
  upd_heap (λ h, delete p (ABC_WalletFreeData p h)) (upd_heap <[p := d]> s) = s.
Proof.
  intros Hp. destruct s as [h c a w]; unfold upd_heap; simpl in *. f_equal.
  unfold ABC_WalletFreeData. apply map_eq; intros i.
  destruct (decide (p = i)) as [->|Hne].
  - by rewrite lookup_delete_eq.
  - rewrite lookup_delete_ne by done. case_decide.
    + by rewrite lookup_insert_ne.
    + rewrite lookup_alter_ne by done. by rewrite lookup_insert_ne.
Qed.

(** ** The lookup *)

Lemma scanCache_found h u l p :
  scanCache h u l = p → p ≠ NULL → p ∈ l ∧ uuid_at h p = Some u.
Proof.
  induction l as [|q l IH]; simpl; [congruence|].
  case_decide as Hq; intros Hp Hn.
  - subst q. split; [left | done].
  - destruct (IH Hp Hn). split; [by right | done].
Qed.

Lemma scanCache_NULL h u l :
  h !! NULL = None →
  scanCache h u l = NULL ↔ ∀ q, q ∈ l → uuid_at h q ≠ Some u.
Proof.
  intros Hnull. induction l as [|q l IH]; simpl.
  - split; [|done]. intros _ q Hq. by apply elem_of_nil in Hq.
  - case_decide as Hq.
    + split.
      * intros ->. unfold uuid_at in Hq. by rewrite Hnull in Hq.
      * intros Hall. exfalso. apply (Hall q); [left | done].
    + rewrite IH. split.
      * intros Hall r [->|Hr]%elem_of_cons; [done | by apply Hall].
      * intros Hall r Hr. apply Hall. by right.
Qed.

Lemma scanCache_ext h h' u l :
  (∀ q, q ∈ l → uuid_at h q = uuid_at h' q) →
  scanCache h u l = scanCache h' u l.
Proof.
  induction l as [|q l IH]; simpl; [done|]. intros Hl.
  rewrite (Hl q) by left. rewrite IH; [done|].
  intros r Hr. apply Hl. by right.
Qed.

Lemma scanCache_hit h u l p :
  NoDup (uuid_at h <$> l) → p ∈ l → uuid_at h p = Some u →
  scanCache h u l = p.
Proof.
  induction l as [|q l IH]; simpl.
  - intros _ Hp. by apply elem_of_nil in Hp.
  - intros [Hq Hnd]%NoDup_cons [->|Hp]%elem_of_cons Hu.
    + by rewrite decide_True.
    + rewrite decide_False; [by apply IH|].
      intros Hqu. apply Hq. rewrite Hqu, <- Hu.
      by apply list_elem_of_fmap_2.
Qed.

Lemma lookup_spec u s :
  ABC_WalletGetFromCacheByUUID (Some u) s
  = (ABC_CC_Ok, scanCache (heap s) u (entries s)).
Proof.
  unfold ABC_WalletGetFromCacheByUUID, entries.
  destruct (gaWalletsCacheArray s) as [arr|]; [|done].
  case_decide as Hc; [done|].
  assert (gWalletsCacheCount s = 0) as -> by lia. done.
Qed.

Lemma cached_spec s u p :
  cached s u p ↔ scanCache (heap s) u (entries s) = p ∧ p ≠ NULL.
Proof.
  unfold cached. rewrite lookup_spec.
  split; intros [H1 H2]; split; congruence.
Qed.

Lemma uncached_spec s u :
  uncached s u ↔ scanCache (heap s) u (entries s) = NULL.
Proof. unfold uncached. rewrite lookup_spec. split; congruence. Qed.

Lemma cached_entry s u p :
  cached s u p → p ∈ entries s ∧ uuid_at (heap s) p = Some u.
Proof.
  intros Hc. apply cached_spec in Hc as [Hs Hn]. by eapply scanCache_found.
Qed.

Lemma cached_uncached s u p : cached s u p → uncached s u → False.
Proof.
  intros Hc Hu. apply cached_spec in Hc as [Hs Hn].
  apply uncached_spec in Hu. congruence.
Qed.

(** ** Adding to the cache *)

Lemma entries_wf_array s :
  cache_wf s →
  entries s = default [] (gaWalletsCacheArray s)
  ∧ length (entries s) = gWalletsCacheCount s.
Proof.
  intros [_ Ha _ _]. unfold entries.
  destruct (gaWalletsCacheArray s) as [arr|]; simpl.
  - destruct Ha as [Hl _]. rewrite <- Hl, firstn_all. done.
  - by rewrite Ha.
Qed.

Lemma add_absent s p u :
  cache_wf s → p ≠ NULL → uuid_at (heap s) p = Some u → uncached s u →
  ABC_WalletAddToCache p s
  = (ABC_CC_Ok, tt,
     mkState (heap s) (S (gWalletsCacheCount s)) (Some (entries s ++ [p]))
       (world s)).
Proof.
  intros Hwf Hp Hu Hun. unfold ABC_WalletAddToCache.
  rewrite decide_False by done. rewrite Hu. rewrite Hun. simpl.
  destruct (entries_wf_array s Hwf) as [He Hl].
  destruct Hwf as [_ Ha _ _].
  destruct (gaWalletsCacheArray s) as [arr|]; simpl in *.
  - destruct Ha as [Hlen Hpos]. rewrite decide_False by lia. simpl.
    do 3 f_equal; [lia|]. rewrite He.
    rewrite resize_ge by lia.
    replace (gWalletsCacheCount s + 1 - length arr) with 1 by lia. simpl.
    rewrite <- Hlen. replace (length arr) with (length arr + 0) by lia.
    by rewrite insert_app_r.
  - rewrite Ha, He. done.
Qed.

Lemma add_present s p q u :
  p ≠ NULL → uuid_at (heap s) p = Some u → cached s u q →
  ABC_WalletAddToCache p s = (ABC_CC_WalletAlreadyExists, tt, s).
Proof.
  intros Hp Hu [Hq Hn]. unfold ABC_WalletAddToCache.
  rewrite decide_False by done. rewrite Hu, Hq. simpl.
  by rewrite decide_False.
Qed.

(** ** The monad's equations *)

Lemma bind_assoc {A B C} (m : M World A) (f : A → M World B)
    (g : B → M World C) s :
  bind (bind m f) g s = bind m (λ x, bind (f x) g) s.
Proof. unfold bind. by destruct (m s) as [[cc|a] s']. Qed.

Lemma bind_CHECK_reading {A B} (f : World → tABC_CC * A)
    (k : A → M World B) s :
  bind (ABC_CHECK (reading f)) k s
  = if decide ((f (world s)).1 = ABC_CC_Ok) then k (f (world s)).2 s
    else (inl (f (world s)).1, s).
Proof.
  unfold bind, ABC_CHECK, reading. destruct (f (world s)) as [cc a]; simpl.
  by case_decide.
Qed.

Lemma bind_CHECK_status {B} cc (k : unit → M World B) s :
  bind (ABC_CHECK (status cc)) k s
  = if decide (cc = ABC_CC_Ok) then k tt s else (inl cc, s).
Proof. unfold bind, ABC_CHECK, status. by case_decide. Qed.

Lemma bind_assign_insert {B} p f d (k : unit → M World B) s :
  bind (assign p f) k (upd_heap <[p := d]> s)
  = k tt (upd_heap <[p := f d]> s).
Proof. unfold bind. by rewrite assign_insert. Qed.

Lemma bind_load_insert {B} p d (k : tWalletData → M World B) s :
  bind (load p) k (upd_heap <[p := d]> s) = k d (upd_heap <[p := d]> s).
Proof. unfold bind. by rewrite load_insert. Qed.

Lemma bind_getWorld {B} (k : World → M World B) s :
  bind getWorld k s = k (world s) s.
Proof. done. Qed.

Lemma world_upd_heap f s : world (upd_heap f s) = world s.
Proof. done. Qed.

(** ** Population follows [loadRecord] *)

Lemma fill_spec E self p s :
  match loadRecord E self (world s) with
  | inl cc =>
      cc ≠ ABC_CC_Ok ∧
      ∃ d', ABC_WalletCacheData_fill E self p
              (upd_heap <[p := set_szUUID (Some (id self)) zeroWalletData]> s)
            = (inl cc, upd_heap <[p := d']> s)
  | inr d =>
      ABC_WalletCacheData_fill E self p
        (upd_heap <[p := set_szUUID (Some (id self)) zeroWalletData]> s)
      = ABC_CHECK (ABC_WalletAddToCache p) (upd_heap <[p := d]> s)
  end.
Proof.
  unfold loadRecord, resolveKeys, loadMetadata, loadName, loadCurrency,
    ABC_WalletCacheData_fill.
  rewrite bind_CHECK_reading, world_upd_heap.
  destruct (wallets_json E (world s) (id self)) as [cc json]; simpl.
  case_decide; [|eauto].
  rewrite bind_CHECK_status.
  destruct (dataKey json) as [dk|]; simpl; [|eauto].
  rewrite bind_CHECK_reading.
  destruct (base16Decode E dk) as [cc1 mk]; simpl.
  case_decide; [|eauto].
  rewrite bind_assign_insert, bind_CHECK_status.
  destruct (bitcoinKey json) as [bk|]; simpl; [|eauto].
  rewrite bind_CHECK_reading.
  destruct (base16Decode E bk) as [cc2 seed]; simpl.
  case_decide; [|eauto].
  rewrite bind_assign_insert, bind_CHECK_status.
  destruct (syncKey json) as [sk|]; simpl; [|eauto].
  rewrite bind_assign_insert, bind_getWorld, world_upd_heap.
  destruct (fileExists E (world s) (syncDir self)); simpl.
  2:{ rewrite bind_assoc, !bind_assign_insert. done. }
  rewrite bind_assoc.
  destruct (fileExists E (world s)
              (String.append (syncDir self) WALLET_NAME_FILENAME)).
  - rewrite bind_assoc, bind_load_insert, bind_assoc, bind_CHECK_reading,
      world_upd_heap; simpl.
    destruct (ABC_CryptoDecryptJSONFile E (world s) _ (ABC_BUF_DUP None mk))
      as [cc3 Data]; simpl.
    case_decide; [|eauto].
    rewrite bind_assoc, bind_CHECK_reading; simpl.
    destruct (ABC_UtilGetStringValueFromJSONString E Data _)
      as [cc4 name]; simpl.
    case_decide; [|eauto].
    rewrite bind_assign_insert.
    destruct (fileExists E (world s)
                (String.append (syncDir self) WALLET_CURRENCY_FILENAME)).
    + rewrite bind_assoc, bind_load_insert, bind_assoc, bind_CHECK_reading,
        world_upd_heap; simpl.
      destruct (ABC_CryptoDecryptJSONFile E (world s) _ (ABC_BUF_DUP None mk))
        as [cc5 Data']; simpl.
      case_decide; [|eauto].
      rewrite bind_assoc, bind_CHECK_reading; simpl.
      destruct (ABC_UtilGetIntValueFromJSONString E Data' _)
        as [cc6 num]; simpl.
      case_decide; [|eauto].
      by rewrite bind_assign_insert.
    + by rewrite bind_assign_insert.
  - rewrite bind_assign_insert.
    destruct (fileExists E (world s)
                (String.append (syncDir self) WALLET_CURRENCY_FILENAME)).
    + rewrite bind_assoc, bind_load_insert, bind_assoc, bind_CHECK_reading,
        world_upd_heap; simpl.
      destruct (ABC_CryptoDecryptJSONFile E (world s) _ (ABC_BUF_DUP None mk))
        as [cc5 Data']; simpl.
      case_decide; [|eauto].
      rewrite bind_assoc, bind_CHECK_reading; simpl.
      destruct (ABC_UtilGetIntValueFromJSONString E Data' _)
        as [cc6 num]; simpl.
      case_decide; [|eauto].
      by rewrite bind_assign_insert.
    + by rewrite bind_assign_insert.
Qed.

Lemma loadRecord_inl E self w cc : loadRecord E self w = inl cc → cc ≠ ABC_CC_Ok.
Proof.
  unfold loadRecord, resolveKeys, loadMetadata, loadName, loadCurrency.
  intros Hl Hcc. subst cc.
  repeat (case_match; simplify_eq; try done).
Qed.

Lemma loadRecord_inr E self w d :
  loadRecord E self w = inr d → szUUID d = Some (id self) ∧ populated d.
Proof.
  unfold loadRecord. intros Hl.
  destruct (resolveKeys E self w) as [?|[[mk seed] sk]]; [done|].
  destruct (loadMetadata E self w (ABC_BUF_DUP None mk))
    as [?|[name num]]; [done|].
  simplify_eq. unfold populated; simpl. eauto 10.
Qed.

(** ** The invariant under the elementary state changes *)

Lemma entries_upd_heap f s : entries (upd_heap f s) = entries s.
Proof. done. Qed.

Lemma entries_set_world w s : entries (set_world w s) = entries s.
Proof. done. Qed.

Lemma wf_entry_live s p : cache_wf s → p ∈ entries s → is_Some (heap s !! p).
Proof. intros Hwf Hp. destruct (wf_entries s Hwf p Hp) as (d & -> & _). eauto. Qed.

Lemma wf_insert_fresh s p d :
  cache_wf s → heap s !! p = None → p ≠ NULL →
  cache_wf (upd_heap <[p := d]> s).
Proof.
  intros Hwf Hp Hn.
  assert (∀ q, q ∈ entries s → q ≠ p) as Hne.
  { intros q Hq ->. destruct (wf_entry_live s p Hwf Hq) as [? ?]. congruence. }
  destruct Hwf as [H0 Ha He Hd]. split; simpl.
  - by rewrite lookup_insert_ne.
  - done.
  - intros q Hq. rewrite entries_upd_heap in Hq.
    rewrite lookup_insert_ne by (intros ->; by eapply Hne). by apply He.
  - rewrite entries_upd_heap.
    erewrite list_fmap_ext; [exact Hd|].
    intros i q Hq. unfold uuid_at.
    rewrite lookup_insert_ne; [done|].
    intros ->. eapply Hne; [|done]. by eapply list_elem_of_lookup_2.
Qed.

Lemma uncached_insert_fresh s p d u :
  cache_wf s → heap s !! p = None →
  uncached s u → uncached (upd_heap <[p := d]> s) u.
Proof.
  intros Hwf Hp Hu. apply uncached_spec. apply uncached_spec in Hu.
  rewrite entries_upd_heap. rewrite <- Hu. apply scanCache_ext.
  intros q Hq. unfold uuid_at; simpl. rewrite lookup_insert_ne; [done|].
  intros ->. destruct (wf_entry_live s q Hwf Hq) as [? ?]. congruence.
Qed.

Lemma entries_append s h p (w : World) :
  cache_wf s →
  entries (mkState h (S (gWalletsCacheCount s)) (Some (entries s ++ [p])) w)
  = entries s ++ [p].
Proof.
  intros Hwf. destruct (entries_wf_array s Hwf) as [_ Hlen].
  unfold entries at 1; cbn [gaWalletsCacheArray gWalletsCacheCount].
  rewrite <- Hlen.
  replace (S (length (entries s))) with (length (entries s ++ [p]))
    by (rewrite length_app; simpl; lia).
  apply firstn_all.
Qed.

Lemma wf_append s p d u :
  cache_wf s → heap s !! p = Some d → populated d → szUUID d = Some u →
  uncached s u →
  cache_wf (mkState (heap s) (S (gWalletsCacheCount s))
              (Some (entries s ++ [p])) (world s)).
Proof.
  intros Hwf Hp Hpop Hu Hun.
  destruct (entries_wf_array s Hwf) as [_ Hlen].
  pose proof (entries_append s (heap s) p (world s) Hwf) as Hent.
  apply uncached_spec in Hun.
  pose proof (proj1 (scanCache_NULL _ u _ (wf_null s Hwf)) Hun) as Hall.
  split.
  - apply (wf_null s Hwf).
  - simpl. rewrite length_app; simpl. lia.
  - rewrite Hent. intros q [Hq|Hq]%elem_of_app.
    + by apply (wf_entries s Hwf).
    + apply list_elem_of_singleton in Hq as ->. eauto.
  - rewrite Hent, fmap_app. apply NoDup_app. split; [apply (wf_nodup s Hwf)|].
    split; [|apply NoDup_singleton].
    intros o Ho Hq. simpl in Hq. apply list_elem_of_singleton in Hq as ->.
    apply list_elem_of_fmap in Ho as (q & Hq1 & Hq2).
    apply (Hall q Hq2). simpl in Hq1. rewrite <- Hq1.
    unfold uuid_at. by rewrite Hp.
Qed.

(** ** The three outcomes of a populate attempt *)

Lemma populate_fail E self s cc :
  loadRecord E self (world s) = inl cc →
  ABC_WalletCacheData_populate E self s = (cc, NULL, s).
Proof.
  intros Hl. unfold ABC_WalletCacheData_populate.
  pose proof (fill_spec E self (malloc (heap s)) s) as Hf.
  rewrite Hl in Hf. destruct Hf as (_ & d' & ->).
  by rewrite free_fresh by apply malloc_fresh.
Qed.

Lemma populate_ok E self s d :
  cache_wf s → uncached s (id self) →
  loadRecord E self (world s) = inr d →
  ABC_WalletCacheData_populate E self s
  = (ABC_CC_Ok, malloc (heap s),
     mkState (<[malloc (heap s) := d]> (heap s))
       (S (gWalletsCacheCount s)) (Some (entries s ++ [malloc (heap s)]))
       (world s)).
Proof.
  intros Hwf Hun Hl. unfold ABC_WalletCacheData_populate.
  pose proof (fill_spec E self (malloc (heap s)) s) as Hf.
  rewrite Hl in Hf. rewrite Hf. clear Hf.
  destruct (loadRecord_inr _ _ _ _ Hl) as [Hu Hpop].
  unfold ABC_CHECK.
  rewrite (add_absent _ _ (id self)).
  - by rewrite decide_True.
  - apply wf_insert_fresh; [done | apply malloc_fresh | apply malloc_not_NULL].
  - apply malloc_not_NULL.
  - unfold uuid_at; simpl. by rewrite lookup_insert_eq.
  - apply uncached_insert_fresh; [done | apply malloc_fresh | done].
Qed.

Lemma populate_present E self s q d :
  cache_wf s → cached s (id self) q →
  loadRecord E self (world s) = inr d →
  ABC_WalletCacheData_populate E self s
  = (ABC_CC_WalletAlreadyExists, NULL, s).
Proof.
  intros Hwf Hq Hl. unfold ABC_WalletCacheData_populate.
  pose proof (fill_spec E self (malloc (heap s)) s) as Hf.
  rewrite Hl in Hf. rewrite Hf. clear Hf.
  destruct (loadRecord_inr _ _ _ _ Hl) as [Hu Hpop].
  unfold ABC_CHECK.
  rewrite (add_present _ _ q (id self)).
  - rewrite decide_False by done.
    by rewrite free_fresh by apply malloc_fresh.
  - apply malloc_not_NULL.
  - unfold uuid_at; simpl. by rewrite lookup_insert_eq.
  - apply cached_spec. apply cached_spec in Hq as [Hs Hn].
    rewrite entries_upd_heap. split; [|done]. rewrite <- Hs.
    apply scanCache_ext. intros r Hr. unfold uuid_at; simpl.
    rewrite lookup_insert_ne; [done|]. intros <-.
    destruct (wf_entry_live s _ Hwf Hr) as [? Hlive].
    rewrite malloc_fresh in Hlive. done.
Qed.

(** ** ABC_WalletCacheData: hit, failed load, successful load *)

Lemma CacheData_hit E self s p :
  cached s (id self) p → ABC_WalletCacheData E self s = (ABC_CC_Ok, p, s).
Proof.
  intros [Hl Hn]. unfold ABC_WalletCacheData. rewrite Hl.
  rewrite decide_True by done. by rewrite decide_True.
Qed.

Lemma CacheData_miss E self s :
  uncached s (id self) →
  ABC_WalletCacheData E self s = ABC_WalletCacheData_populate E self s.
Proof.
  intros Hl. unfold ABC_WalletCacheData. rewrite Hl.
  rewrite decide_True by done. rewrite decide_False; [done|]. by intros [].
Qed.

Lemma cached_or_uncached s u :
  uncached s u ∨ ∃ p, cached s u p.
Proof.
  destruct (decide (scanCache (heap s) u (entries s) = NULL)) as [Hs|Hs].
  - left. by apply uncached_spec.
  - right. eexists. by apply cached_spec.
Qed.

Lemma CacheData_cases E self s :
  (∃ p, cached s (id self) p ∧
        ABC_WalletCacheData E self s = (ABC_CC_Ok, p, s))
  ∨ (∃ cc, uncached s (id self) ∧ cc ≠ ABC_CC_Ok ∧
           loadRecord E self (world s) = inl cc ∧
           ABC_WalletCacheData E self s = (cc, NULL, s))
  ∨ (∃ d, uncached s (id self) ∧
          loadRecord E self (world s) = inr d ∧
          (cache_wf s →
           ABC_WalletCacheData E self s
           = (ABC_CC_Ok, malloc (heap s),
              mkState (<[malloc (heap s) := d]> (heap s))
                (S (gWalletsCacheCount s))
                (Some (entries s ++ [malloc (heap s)])) (world s)))).
Proof.
  destruct (cached_or_uncached s (id self)) as [Hu|[p Hp]].
  - right. destruct (loadRecord E self (world s)) as [cc|d] eqn:Hl.
    + left. exists cc. rewrite CacheData_miss by done.
      split_and!; [done | by eapply loadRecord_inl | done
                  | by apply populate_fail].
    + right. exists d. split_and!; [done..|].
      intros Hwf. rewrite CacheData_miss by done. by apply populate_ok.
  - left. exists p. split; [done | by apply CacheData_hit].
Qed.

(** ** The invariant under the operations *)

Lemma wf_initial (w : World) : cache_wf (initial w).
Proof.
  split; simpl; [done | done | | constructor].
  intros p Hp. by apply elem_of_nil in Hp.
Qed.

Lemma wf_set_world w s : cache_wf s → cache_wf (set_world w s).
Proof. intros [H0 Ha He Hd]. by split. Qed.

Lemma wf_CacheData E self s : cache_wf s → cache_wf (ABC_WalletCacheData E self s).2.
Proof.
  intros Hwf.
  destruct (CacheData_cases E self s)
    as [(p & _ & ->)|[(cc & _ & _ & _ & ->)|(d & Hu & Hl & Hok)]];
    [done..|].
  rewrite Hok by done. simpl.
  destruct (loadRecord_inr _ _ _ _ Hl) as [Hid Hpop].
  refine (wf_append (upd_heap <[malloc (heap s) := d]> s)
            (malloc (heap s)) d (id self) _ _ _ _ _).
  - apply wf_insert_fresh; [done | apply malloc_fresh | apply malloc_not_NULL].
  - simpl. by rewrite lookup_insert_eq.
  - done.
  - done.
  - apply uncached_insert_fresh; [done | apply malloc_fresh | done].
Qed.

Lemma uuid_at_alter_name h n p q :
  uuid_at (alter (set_szName n) p h) q = uuid_at h q.
Proof.
  unfold uuid_at. rewrite lookup_alter. case_decide; [subst|done].
  by destruct (h !! q).
Qed.

Lemma wf_rename s p n :
  cache_wf s → cache_wf (upd_heap (alter (set_szName (Some n)) p) s).
Proof.
  intros [H0 Ha He Hd]. split; simpl.
  - rewrite lookup_alter. case_decide; [subst|done]. by rewrite H0.
  - done.
  - intros q Hq. rewrite entries_upd_heap in Hq.
    destruct (He q Hq) as (d & Hq' & Hpop). rewrite lookup_alter.
    case_decide; [subst|eauto]. rewrite Hq'. simpl. eexists; split; [done|].
    unfold populated in *; simpl. intuition eauto.
  - rewrite entries_upd_heap.
    erewrite list_fmap_ext; [exact Hd|].
    intros i q Hq. by rewrite uuid_at_alter_name.
Qed.

(** [ABC_WalletSetName], step by step. *)
Lemma SetName_spec E self szName s :
  ABC_WalletSetName E self szName s =
  let '(cc1, pData, s1) := ABC_WalletCacheData E self s in
  if decide (cc1 = ABC_CC_Ok) then
    let s2 := upd_heap (alter (set_szName (Some szName)) pData) s1 in
    let '(cc2, szJSON) :=
      ABC_UtilCreateValueJSONString E szName JSON_WALLET_NAME_FIELD in
    if decide (cc2 = ABC_CC_Ok) then
      let '(cc3, w') :=
        ABC_CryptoEncryptJSONFile E (world s1) (jsonBuf szJSON)
          (MK (deref (heap s1) pData)) ABC_CryptoType_AES256
          (String.append (syncDir self) WALLET_NAME_FILENAME) in
      (cc3, set_world w' s2)
    else (cc2, s2)
  else (cc1, s1).
Proof.
  unfold ABC_WalletSetName, ABC_WalletSetName_body.
  unfold bind at 1. unfold ABC_CHECK at 1.
  destruct (ABC_WalletCacheData E self s) as [[cc1 pData] s1].
  case_decide; [|done].
  unfold bind at 1. unfold assign at 1.
  rewrite bind_CHECK_reading.
  destruct (ABC_UtilCreateValueJSONString E szName JSON_WALLET_NAME_FIELD)
    as [cc2 szJSON]; simpl.
  case_decide; [|done].
  unfold bind, load, ABC_CHECK; simpl.
  replace (MK (deref (alter (set_szName (Some szName)) pData (heap s1)) pData))
    with (MK (deref (heap s1) pData)).
  2:{ unfold deref. rewrite lookup_alter, decide_True by done.
      by destruct (heap s1 !! pData). }
  destruct (ABC_CryptoEncryptJSONFile E (world s1) _ _ _ _) as [cc3 w'].
  by case_decide; subst.
Qed.

Lemma wf_SetName E self szName s :
  cache_wf s → cache_wf (ABC_WalletSetName E self szName s).2.
Proof.
  intros Hwf. rewrite SetName_spec.
  pose proof (wf_CacheData E self s Hwf) as Hwf1.
  destruct (ABC_WalletCacheData E self s) as [[cc1 pData] s1]; simpl in *.
  case_decide; [|done].
  destruct (ABC_UtilCreateValueJSONString E _ _) as [cc2 szJSON].
  case_decide; [|by apply wf_rename].
  destruct (ABC_CryptoEncryptJSONFile E _ _ _ _ _) as [cc3 w']; simpl.
  by apply wf_set_world, wf_rename.
Qed.

(** [ABC_WalletGetInfo], step by step. *)
Lemma GetInfo_spec E self s :
  ABC_WalletGetInfo E self s =
  let '(cc1, pData, s1) := ABC_WalletCacheData E self s in
  if decide (cc1 = ABC_CC_Ok) then
    let d := deref (heap s1) pData in
    let '(cc2, archived) := wallets_archived E (world s1) (id self) in
    if decide (cc2 = ABC_CC_Ok) then
      let '(cc3, balance) := wallet_balance E (world s1) (id self) in
      if decide (cc3 = ABC_CC_Ok) then
        (ABC_CC_Ok,
         Some (mkWalletInfo (Some (id self)) (szName d) (currencyNum d)
                 archived balance), s1)
      else (cc3, None, s1)
    else (cc2, None, s1)
  else (cc1, None, s1).
Proof.
  unfold ABC_WalletGetInfo, ABC_WalletGetInfo_body.
  unfold bind at 1. unfold ABC_CHECK at 1.
  destruct (ABC_WalletCacheData E self s) as [[cc1 pData] s1].
  case_decide; [|done].
  unfold bind at 1. unfold load at 1.
  rewrite bind_CHECK_reading.
  destruct (wallets_archived E (world s1) (id self)) as [cc2 archived]; simpl.
  case_decide; [|done].
  rewrite bind_CHECK_reading.
  destruct (wallet_balance E (world s1) (id self)) as [cc3 balance]; simpl.
  case_decide; [|done].
  unfold ret. by destruct (szName (deref (heap s1) pData)).
Qed.

Lemma GetInfo_state E self s :
  (ABC_WalletGetInfo E self s).2 = (ABC_WalletCacheData E self s).2.
Proof.
  rewrite GetInfo_spec.
  destruct (ABC_WalletCacheData E self s) as [[cc1 pData] s1]; simpl.
  repeat (case_match; simpl; try done).
Qed.

Lemma wf_GetInfo E self s :
  cache_wf s → cache_wf (ABC_WalletGetInfo E self s).2.
Proof. rewrite GetInfo_state. apply wf_CacheData. Qed.

(** ** Clearing the cache *)

Lemma clear_spec s :
  cache_wf s →
  ABC_WalletClearCache s
  = mkState (foldl (λ h pData, ABC_WalletFreeData pData h) (heap s) (entries s))
      0 None (world s).
Proof.
  intros [_ Ha _ _]. unfold ABC_WalletClearCache, entries.
  destruct s as [h c [arr|] w]; simpl in *.
  - destruct Ha as [_ Hpos]. by rewrite decide_True.
  - by subst c.
Qed.

Lemma free_lookup p h q :
  ABC_WalletFreeData p h !! q
  = if decide (q = p ∧ q ≠ NULL) then freedWalletData <$> h !! q else h !! q.
Proof.
  unfold ABC_WalletFreeData. case_decide as Hp.
  - subst p. rewrite decide_False; [done|]. tauto.
  - rewrite lookup_alter.
    repeat case_decide; subst; try done; exfalso; intuition congruence.
Qed.

Lemma freedWalletData_idemp d :
  freedWalletData (freedWalletData d) = freedWalletData d.
Proof. done. Qed.

Lemma free_all_lookup l h q :
  foldl (λ h pData, ABC_WalletFreeData pData h) h l !! q
  = if decide (q ∈ l ∧ q ≠ NULL) then freedWalletData <$> h !! q else h !! q.
Proof.
  revert h. induction l as [|p l IH]; intros h; cbn [foldl].
  - rewrite decide_False; [done|]. intros [Hq _]. by apply elem_of_nil in Hq.
  - rewrite IH, free_lookup.
    pose proof (elem_of_cons l q p) as Hc.
    repeat case_decide; try done; try (exfalso; tauto).
    by destruct (h !! q).
Qed.

Lemma wf_ClearCache s : cache_wf s → cache_wf (ABC_WalletClearCache s).
Proof.
  intros Hwf. rewrite clear_spec by done. split; simpl.
  - rewrite free_all_lookup. rewrite decide_False by tauto.
    apply (wf_null s Hwf).
  - done.
  - intros p Hp. by apply elem_of_nil in Hp.
  - constructor.
Qed.

Lemma wf_step E op s : cache_wf s → cache_wf (step E op s).
Proof.
  destruct op; simpl.
  - apply wf_CacheData.
  - apply wf_SetName.
  - apply wf_GetInfo.
  - apply wf_ClearCache.
Qed.

Lemma wf_runOps E ops s : cache_wf s → cache_wf (runOps E ops s).
Proof.
  revert s. induction ops as [|op ops IH]; intros s Hwf; simpl; [done|].
  by apply IH, wf_step.
Qed.

(** ** What a successful ABC_WalletCacheData leaves behind *)

Lemma AddToCache_world p s : world (ABC_WalletAddToCache p s).2 = world s.
Proof.
  unfold ABC_WalletAddToCache. case_decide; [done|].
  destruct (ABC_WalletGetFromCacheByUUID _ s) as [cc q].
  case_decide; [|done]. case_decide; [|done].
  by destruct (gaWalletsCacheArray s); [case_decide|].
Qed.

Lemma CacheData_world E self s :
  world (ABC_WalletCacheData E self s).2 = world s.
Proof.
  unfold ABC_WalletCacheData.
  destruct (ABC_WalletGetFromCacheByUUID (Some (id self)) s) as [cc p].
  case_decide; [|done]. case_decide; [done|].
  unfold ABC_WalletCacheData_populate.
  pose proof (fill_spec E self (malloc (heap s)) s) as Hf.
  destruct (loadRecord E self (world s)) as [cc'|d].
  - destruct Hf as (_ & d' & ->). simpl. done.
  - rewrite Hf. unfold ABC_CHECK.
    pose proof (AddToCache_world (malloc (heap s))
                  (upd_heap <[malloc (heap s) := d]> s)) as Hw.
    destruct (ABC_WalletAddToCache _ _) as [[cc1 u] s1]; simpl in *.
    by case_decide.
Qed.

Lemma CacheData_ok E self s p s' :
  cache_wf s → ABC_WalletCacheData E self s = (ABC_CC_Ok, p, s') →
  cache_wf s' ∧ cached s' (id self) p ∧ world s' = world s ∧
  ∃ d, heap s' !! p = Some d ∧ populated d ∧ szUUID d = Some (id self).
Proof.
  intros Hwf Heq.
  pose proof (wf_CacheData E self s Hwf) as Hwf'.
  pose proof (CacheData_world E self s) as Hw.
  rewrite Heq in Hwf', Hw. simpl in Hwf', Hw.
  split_and!; [done| |done|].
  - destruct (CacheData_cases E self s)
      as [(q & Hq & Hc)|[(cc & _ & Hcc & _ & Hc)|(d & Hu & Hl & Hc)]].
    + rewrite Hc in Heq. by simplify_eq.
    + rewrite Hc in Heq. by simplify_eq.
    + rewrite Hc in Heq by done. simplify_eq.
      destruct (loadRecord_inr _ _ _ _ Hl) as [Hid _].
      apply cached_spec. split; [|apply malloc_not_NULL].
      apply scanCache_hit.
      * apply (wf_nodup _ Hwf').
      * rewrite entries_append by done. apply elem_of_app. right. by left.
      * unfold uuid_at; simpl. rewrite lookup_insert_eq. simpl. done.
  - destruct (CacheData_cases E self s)
      as [(q & Hq & Hc)|[(cc & _ & Hcc & _ & Hc)|(d & Hu & Hl & Hc)]].
    + rewrite Hc in Heq. simplify_eq.
      destruct (cached_entry _ _ _ Hq) as [Hin Hu].
      destruct (wf_entries _ Hwf _ Hin) as (d & Hd & Hpop).
      exists d. split_and!; [done..|].
      unfold uuid_at in Hu. by rewrite Hd in Hu.
    + rewrite Hc in Heq. by simplify_eq.
    + rewrite Hc in Heq by done. simplify_eq.
      destruct (loadRecord_inr _ _ _ _ Hl) as [Hid Hpop].
      exists d; simpl. by rewrite lookup_insert_eq.
Qed.

Lemma CacheData_loaded E self s p s' :
  cache_wf s → uncached s (id self) →
  ABC_WalletCacheData E self s = (ABC_CC_Ok, p, s') →
  ∃ d, loadRecord E self (world s) = inr d ∧ heap s' !! p = Some d ∧
       heap s !! p = None.
Proof.
  intros Hwf Hun Heq.
  destruct (CacheData_cases E self s)
    as [(q & Hq & Hc)|[(cc & _ & Hcc & _ & Hc)|(d & Hu & Hl & Hc)]].
  - by destruct (cached_uncached _ _ _ Hq Hun).
  - rewrite Hc in Heq. by simplify_eq.
  - rewrite Hc in Heq by done. simplify_eq. exists d; simpl.
    rewrite lookup_insert_eq. split_and!; [done..|apply malloc_fresh].
Qed.

Lemma load_succeeds E self s d :
  cache_wf s → uncached s (id self) →
  loadRecord E self (world s) = inr d →
  ∃ p s', ABC_WalletCacheData E self s = (ABC_CC_Ok, p, s') ∧
          heap s !! p = None ∧ heap s' !! p = Some d.
Proof.
  intros Hwf Hun Hl. rewrite CacheData_miss by done.
  rewrite (populate_ok E self s d) by done.
  eexists _, _. split; [done|]. simpl.
  rewrite lookup_insert_eq. split; [apply malloc_fresh | done].
Qed.

(** ** Which step failures make a load fail *)

(** The account's wallet list does not know the wallet. *)
Lemma load_error_key_lookup E self s cc json :
  uncached s (id self) →
  wallets_json E (world s) (id self) = (cc, json) → cc ≠ ABC_CC_Ok →
  ABC_WalletCacheData E self s = (cc, NULL, s).
Proof.
  intros Hun Hj Hcc. rewrite CacheData_miss by done. apply populate_fail.
  unfold loadRecord, resolveKeys. rewrite Hj. by rewrite decide_False.
Qed.

(** The data key is not valid hex. *)
Lemma load_error_hex_decode E self s json dk cc junk :
  uncached s (id self) →
  wallets_json E (world s) (id self) = (ABC_CC_Ok, json) →
  dataKey json = Some dk →
  base16Decode E dk = (cc, junk) → cc ≠ ABC_CC_Ok →
  ABC_WalletCacheData E self s = (cc, NULL, s).
Proof.
  intros Hun Hj Hdk Hd Hcc. rewrite CacheData_miss by done.
  apply populate_fail. unfold loadRecord, resolveKeys.
  rewrite Hj, decide_True, Hdk, Hd by done. by rewrite decide_False.
Qed.

(** The name file cannot be decrypted. *)
Lemma load_error_decrypt E self s mk seed sk cc junk :
  uncached s (id self) →
  resolveKeys E self (world s) = inr (mk, seed, sk) →
  fileExists E (world s) (syncDir self) = true →
  fileExists E (world s) (String.append (syncDir self) WALLET_NAME_FILENAME)
    = true →
  ABC_CryptoDecryptJSONFile E (world s)
    (String.append (syncDir self) WALLET_NAME_FILENAME)
    (ABC_BUF_DUP None mk)
    = (cc, junk) →
  cc ≠ ABC_CC_Ok →
  ABC_WalletCacheData E self s = (cc, NULL, s).
Proof.
  intros Hun Hk Hdir Hfile Hd Hcc. rewrite CacheData_miss by done.
  apply populate_fail. unfold loadRecord, loadMetadata, loadName.
  rewrite Hk, Hdir, Hfile, Hd. simpl. by rewrite decide_False.
Qed.

(** The decrypted name file does not parse. *)
Lemma load_error_parse E self s mk seed sk Data cc junk :
  uncached s (id self) →
  resolveKeys E self (world s) = inr (mk, seed, sk) →
  fileExists E (world s) (syncDir self) = true →
  fileExists E (world s) (String.append (syncDir self) WALLET_NAME_FILENAME)
    = true →
  ABC_CryptoDecryptJSONFile E (world s)
    (String.append (syncDir self) WALLET_NAME_FILENAME)
    (ABC_BUF_DUP None mk)
    = (ABC_CC_Ok, Data) →
  ABC_UtilGetStringValueFromJSONString E Data JSON_WALLET_NAME_FIELD
    = (cc, junk) →
  cc ≠ ABC_CC_Ok →
  ABC_WalletCacheData E self s = (cc, NULL, s).
Proof.
  intros Hun Hk Hdir Hfile Hd Hp Hcc. rewrite CacheData_miss by done.
  apply populate_fail. unfold loadRecord, loadMetadata, loadName.
  rewrite Hk, Hdir, Hfile, Hd. simpl. rewrite Hp.
  by rewrite decide_False.
Qed.

(** What the two field loaders do with an absent file. *)
Lemma loadName_absent E self w mk :
  fileExists E w (String.append (syncDir self) WALLET_NAME_FILENAME) = false →
  loadName E self w mk = inr ""%string.
Proof. intros Hf. unfold loadName. by rewrite Hf. Qed.

Lemma loadCurrency_absent E self w mk :
  fileExists E w (String.append (syncDir self) WALLET_CURRENCY_FILENAME)
    = false →
  loadCurrency E self w mk = inr (-1)%Z.
Proof. intros Hf. unfold loadCurrency. by rewrite Hf. Qed.

Lemma loadName_inl E self w mk cc : loadName E self w mk = inl cc → cc ≠ ABC_CC_Ok.
Proof.
  unfold loadName. intros Hl ->. repeat (case_match; simplify_eq; try done).
Qed.

Lemma loadCurrency_inl E self w mk cc :
  loadCurrency E self w mk = inl cc → cc ≠ ABC_CC_Ok.
Proof.
  unfold loadCurrency. intros Hl ->. repeat (case_match; simplify_eq; try done).
Qed.

Lemma cached_rename s u p q n :
  cached s u p → cached (upd_heap (alter (set_szName n) q) s) u p.
Proof.
  intros Hc. apply cached_spec. apply cached_spec in Hc as [Hs Hn].
  split; [|done]. rewrite entries_upd_heap, <- Hs. apply scanCache_ext.
  intros r _. simpl. apply uuid_at_alter_name.
Qed.

Lemma cached_set_world s u p w : cached s u p → cached (set_world w s) u p.
Proof. done. Qed.

Lemma uncached_set_world s u w : uncached s u → uncached (set_world w s) u.
Proof. done. Qed.

End Properties.

(** * The claims *)

(** C1. For a wallet identity that is not yet in the cache, whenever
    [ABC_WalletCacheData] reports an error (whichever step of the record
    population failed: key-material lookup, hex decoding, file decryption
    or JSON parsing, see [load_error_key_lookup], [load_error_hex_decode],
    [load_error_decrypt], [load_error_parse]), no record is handed back and
    the whole state, cache array and heap included, is exactly what it was
    before the call: no entry for the identity was inserted, the identity
    is still uncached, and a later call for it, in whatever world, runs the
    populate path again from that unchanged state. *)
Theorem failed_load_leaves_cache_unchanged {World}
    (E : Collaborators World) (self : Wallet) (s : State World)
    (cc : tABC_CC) (pData : ptr) (s' : State World) :
  cache_wf s → uncached s (id self) →
  ABC_WalletCacheData E self s = (cc, pData, s') →
  cc ≠ ABC_CC_Ok →
  pData = NULL ∧ s' = s ∧ uncached s' (id self) ∧
  ∀ E' w, ABC_WalletCacheData E' self (set_world w s')
          = ABC_WalletCacheData_populate E' self (set_world w s).
Proof.
  intros Hwf Hun Heq Hcc.
  assert (pData = NULL ∧ s' = s) as [-> ->].
  { destruct (CacheData_cases E self s)
      as [(q & Hq & Hc)|[(cc' & _ & _ & _ & Hc)|(d & _ & _ & Hc)]].
    - rewrite Hc in Heq. by simplify_eq.
    - rewrite Hc in Heq. by simplify_eq.
    - rewrite Hc in Heq by done. by simplify_eq. }
  split_and!; [done..|].
  intros E' w. apply CacheData_miss. by apply uncached_set_world.
Qed.

Lemma failed_load_leaves_cache_unchanged_witness :
  let r := ABC_WalletCacheData collaborators W3 (initial disk3) in
  r.1.1 = ABC_CC_ParseError ∧ r.1.2 = NULL ∧ r.2 = initial disk3 ∧
  uncached r.2 (id W3).
Proof.
  destruct (failed_load_leaves_cache_unchanged collaborators W3
              (initial disk3) ABC_CC_ParseError
              (ABC_WalletCacheData collaborators W3 (initial disk3)).1.2
              (ABC_WalletCacheData collaborators W3 (initial disk3)).2)
    as (H1 & H2 & H3 & _).
  - apply wf_initial.
  - vm_compute. reflexivity.
  - vm_compute. reflexivity.
  - discriminate.
  - split; [vm_compute; reflexivity|]. split; [exact H1|].
    split; [exact H2 | exact H3].
Defined.

(** C2, as the code has it. When the identity already has an entry in the
    cache at the moment of insertion, [ABC_WalletAddToCache] does not
    insert the freshly built record: it leaves the state untouched and
    reports [ABC_CC_WalletAlreadyExists]. The populate operation then
    frees the fresh record and returns an error, handing back no record
    and leaving the state, the existing entry included, exactly as it was;
    the error is [ABC_CC_WalletAlreadyExists] whenever the record itself
    could be built. *)
Theorem add_if_absent_rejects_existing {World}
    (E : Collaborators World) (self : Wallet) (s : State World) (p : ptr) :
  cache_wf s → cached s (id self) p →
  (∀ q, q ≠ NULL → uuid_at (heap s) q = Some (id self) →
        ABC_WalletAddToCache q s = (ABC_CC_WalletAlreadyExists, tt, s))
  ∧ ∃ cc, cc ≠ ABC_CC_Ok ∧
          ABC_WalletCacheData_populate E self s = (cc, NULL, s) ∧
          (∀ d, loadRecord E self (world s) = inr d →
                cc = ABC_CC_WalletAlreadyExists).
Proof.
  intros Hwf Hp. split.
  - intros q Hq Hu. by eapply add_present.
  - destruct (loadRecord E self (world s)) as [cc|d] eqn:Hl.
    + exists cc. split_and!; [by eapply loadRecord_inl | | done].
      by apply populate_fail.
    + exists ABC_CC_WalletAlreadyExists. split_and!; [done | | done].
      by eapply populate_present.
Qed.

Lemma add_if_absent_rejects_existing_witness :
  ABC_WalletCacheData_populate collaborators W2 loaded2
  = (ABC_CC_WalletAlreadyExists, NULL, loaded2).
Proof.
  destruct (add_if_absent_rejects_existing collaborators W2 loaded2 1)
    as (_ & cc & _ & Hpop & Hcc).
  - apply wf_CacheData, wf_initial.
  - split; [vm_compute; reflexivity | discriminate].
  - rewrite Hpop. f_equal. f_equal. eapply Hcc. vm_compute. reflexivity.
Defined.

(** C2 as stated fails: with wallet "W2" already cached, a populate
    attempt does not succeed with the existing record; it returns
    [ABC_CC_WalletAlreadyExists]. *)
Lemma populate_does_not_return_existing :
  cached loaded2 (id W2) 1 ∧
  ABC_WalletCacheData_populate collaborators W2 loaded2
  = (ABC_CC_WalletAlreadyExists, NULL, loaded2) ∧
  ¬ populateReturnsExisting collaborators W2 loaded2.
Proof.
  assert (cached loaded2 (id W2) 1) as Hc.
  { split; [vm_compute; reflexivity | discriminate]. }
  assert (ABC_WalletCacheData_populate collaborators W2 loaded2
          = (ABC_CC_WalletAlreadyExists, NULL, loaded2)) as Hp.
  { vm_compute. reflexivity. }
  split_and!; [done..|].
  intros Hall. destruct (Hall 1 Hc) as [s' Hs']. rewrite Hp in Hs'.
  discriminate.
Qed.


(** C3. When [ABC_WalletSetName] gets as far as the encrypted write and
    the write fails, the call returns the write's error; the cached record
    of the wallet, still found in the cache under the wallet's identity,
    already carries the new name, and nothing restores the old one. The
    world is whatever the failed write left behind, so memory is ahead of
    the disk. *)
Theorem failed_write_keeps_new_name {World}
    (E : Collaborators World) (self : Wallet) (szNewName : string)
    (s s1 : State World) (pData : ptr) (szJSON : string)
    (cc : tABC_CC) (w' : World) :
  cache_wf s →
  ABC_WalletCacheData E self s = (ABC_CC_Ok, pData, s1) →
  ABC_UtilCreateValueJSONString E szNewName JSON_WALLET_NAME_FIELD
    = (ABC_CC_Ok, szJSON) →
  ABC_CryptoEncryptJSONFile E (world s1) (jsonBuf szJSON)
    (MK (deref (heap s1) pData)) ABC_CryptoType_AES256
    (String.append (syncDir self) WALLET_NAME_FILENAME) = (cc, w') →
  cc ≠ ABC_CC_Ok →
  ∃ s2, ABC_WalletSetName E self szNewName s = (cc, s2) ∧
        world s2 = w' ∧
        cached s2 (id self) pData ∧
        (szName <$> heap s2 !! pData) = Some (Some szNewName) ∧
        (∀ q, q ≠ pData → heap s2 !! q = heap s1 !! q).
Proof.
  intros Hwf Hload Hjson Hwrite Hcc.
  destruct (CacheData_ok E self s pData s1 Hwf Hload)
    as (Hwf1 & Hc & Hw & d & Hd & Hpop & Hid).
  eexists. split.
  { rewrite SetName_spec, Hload. rewrite decide_True by done.
    cbv zeta. rewrite Hjson. rewrite decide_True by done.
    rewrite Hwrite. reflexivity. }
  split_and!.
  - done.
  - by apply cached_set_world, cached_rename.
  - simpl. rewrite lookup_alter, decide_True by done. by rewrite Hd.
  - intros q Hq. simpl. rewrite lookup_alter. by rewrite decide_False.
Qed.

Lemma failed_write_keeps_new_name_witness :
  ∃ s2, ABC_WalletSetName collaborators W1 "My Wallet" (initial disk0)
        = (ABC_CC_FileWriteError, s2) ∧
        (szName <$> heap s2 !! 1) = Some (Some "My Wallet"%string).
Proof.
  destruct (failed_write_keeps_new_name collaborators W1 "My Wallet"
              (initial disk0)
              (ABC_WalletCacheData collaborators W1 (initial disk0)).2
              1 "walletName=My Wallet" ABC_CC_FileWriteError disk0)
    as (s2 & H1 & _ & _ & H2 & _).
  - apply wf_initial.
  - vm_compute. reflexivity.
  - vm_compute. reflexivity.
  - vm_compute. reflexivity.
  - discriminate.
  - exists s2. split; [exact H1 | exact H2].
Defined.

(** C4. After any sequence of getOrLoad, setName, getInfo and clearCache
    operations, started from the empty cache of a fresh process, no two
    entries of the cache array hold the same UUID string. *)
Theorem cache_has_one_entry_per_identity {World}
    (E : Collaborators World) (w : World) (ops : list Op)
    (i j : nat) (u : string) :
  cacheUUID (runOps E ops (initial w)) i = Some u →
  cacheUUID (runOps E ops (initial w)) j = Some u →
  i = j.
Proof.
  intros Hi Hj.
  pose proof (wf_runOps E ops (initial w) (wf_initial w)) as Hwf.
  pose proof (wf_nodup _ Hwf) as Hnd.
  unfold cacheUUID in Hi, Hj.
  eapply NoDup_lookup; [exact Hnd| |].
  - rewrite list_lookup_fmap.
    destruct (entries _ !! i) as [p|]; [simpl in *|done].
    by rewrite Hi.
  - rewrite list_lookup_fmap.
    destruct (entries _ !! j) as [p|]; [simpl in *|done].
    by rewrite Hj.
Qed.

Lemma cache_has_one_entry_per_identity_witness :
  let ops := [GetOrLoad W2; SetName W1 "A"; GetInfo W2; GetOrLoad W1] in
  cacheUUID (runOps collaborators ops (initial disk2)) 1 = Some "W1"%string
  ∧ 1 = 1.
Proof.
  split; [vm_compute; reflexivity|].
  apply (cache_has_one_entry_per_identity collaborators disk2
           [GetOrLoad W2; SetName W1 "A"; GetInfo W2; GetOrLoad W1]
           1 1 "W1");
    vm_compute; reflexivity.
Defined.



(** C6. For a wallet that is not yet cached, whose key material resolves
    and whose sync directory does not exist, [ABC_WalletCacheData]
    succeeds and the record it caches has the empty string as its name
    and -1 as its currency number (next to the resolved keys). *)
Theorem missing_sync_dir_gives_defaults {World}
    (E : Collaborators World) (self : Wallet) (s : State World)
    (mk seed : DataChunk) (sk : string) :
  cache_wf s → uncached s (id self) →
  resolveKeys E self (world s) = inr (mk, seed, sk) →
  fileExists E (world s) (syncDir self) = false →
  ∃ p s', ABC_WalletCacheData E self s = (ABC_CC_Ok, p, s') ∧
          cached s' (id self) p ∧
          heap s' !! p
          = Some (mkWalletData (Some (id self)) (Some ""%string) (Some sk)
                    (-1) (ABC_BUF_DUP None mk) (ABC_BUF_DUP None seed)).
Proof.
  intros Hwf Hun Hk Hdir.
  destruct (load_succeeds E self s
              (mkWalletData (Some (id self)) (Some ""%string) (Some sk)
                 (-1) (ABC_BUF_DUP None mk) (ABC_BUF_DUP None seed)) Hwf Hun)
    as (p & s' & Heq & _ & Hd).
  { unfold loadRecord, loadMetadata. by rewrite Hk, Hdir. }
  exists p, s'. split_and!; [done| |done].
  by destruct (CacheData_ok E self s p s' Hwf Heq) as (_ & Hc & _).
Qed.

Lemma missing_sync_dir_gives_defaults_witness :
  ∃ p s', ABC_WalletCacheData collaborators W1 (initial disk0)
          = (ABC_CC_Ok, p, s') ∧
          cached s' (id W1) p ∧
          heap s' !! p
          = Some (mkWalletData (Some "W1"%string) (Some ""%string)
                    (Some "sync1"%string) (-1)
                    (Some [Byte.xaa; Byte.x11]) (Some [Byte.xbb; Byte.x22])).
Proof.
  apply (missing_sync_dir_gives_defaults collaborators W1 (initial disk0)
           [Byte.xaa; Byte.x11] [Byte.xbb; Byte.x22] "sync1").
  - apply wf_initial.
  - vm_compute. reflexivity.
  - vm_compute. reflexivity.
  - vm_compute. reflexivity.
Defined.

(** C7. For a wallet that is not yet cached, whose key material resolves
    and whose sync directory exists, the name and the currency are read
    independently, each from its own file: [loadName] looks only at the
    name file and [loadCurrency] only at the currency file, an absent file
    giving the default ("" and -1). A decryption or parse failure on
    either file becomes the error of the load (and nothing is cached);
    otherwise the cached record carries exactly the two values read. *)
Theorem metadata_files_load_independently {World}
    (E : Collaborators World) (self : Wallet) (s : State World)
    (mk seed : DataChunk) (sk : string) :
  cache_wf s → uncached s (id self) →
  resolveKeys E self (world s) = inr (mk, seed, sk) →
  fileExists E (world s) (syncDir self) = true →
  (fileExists E (world s) (String.append (syncDir self) WALLET_NAME_FILENAME)
     = false → loadName E self (world s) (ABC_BUF_DUP None mk) = inr ""%string)
  ∧ (fileExists E (world s)
       (String.append (syncDir self) WALLET_CURRENCY_FILENAME) = false →
     loadCurrency E self (world s) (ABC_BUF_DUP None mk) = inr (-1)%Z)
  ∧ (∀ cc, loadName E self (world s) (ABC_BUF_DUP None mk) = inl cc →
           cc ≠ ABC_CC_Ok ∧ ABC_WalletCacheData E self s = (cc, NULL, s))
  ∧ (∀ name cc,
       loadName E self (world s) (ABC_BUF_DUP None mk) = inr name →
       loadCurrency E self (world s) (ABC_BUF_DUP None mk) = inl cc →
       cc ≠ ABC_CC_Ok ∧ ABC_WalletCacheData E self s = (cc, NULL, s))
  ∧ (∀ name num,
       loadName E self (world s) (ABC_BUF_DUP None mk) = inr name →
       loadCurrency E self (world s) (ABC_BUF_DUP None mk) = inr num →
       ∃ p s', ABC_WalletCacheData E self s = (ABC_CC_Ok, p, s') ∧
               cached s' (id self) p ∧
               heap s' !! p
               = Some (mkWalletData (Some (id self)) (Some name) (Some sk)
                         num (ABC_BUF_DUP None mk) (ABC_BUF_DUP None seed))).
Proof.
  intros Hwf Hun Hk Hdir. split_and!.
  - apply loadName_absent.
  - apply loadCurrency_absent.
  - intros cc Hn. split; [by eapply loadName_inl|].
    rewrite CacheData_miss by done. apply populate_fail.
    unfold loadRecord, loadMetadata. by rewrite Hk, Hdir, Hn.
  - intros name cc Hn Hc. split; [by eapply loadCurrency_inl|].
    rewrite CacheData_miss by done. apply populate_fail.
    unfold loadRecord, loadMetadata. by rewrite Hk, Hdir, Hn, Hc.
  - intros name num Hn Hc.
    destruct (load_succeeds E self s
                (mkWalletData (Some (id self)) (Some name) (Some sk)
                   num (ABC_BUF_DUP None mk) (ABC_BUF_DUP None seed)) Hwf Hun)
      as (p & s' & Heq & _ & Hd).
    { unfold loadRecord, loadMetadata. by rewrite Hk, Hdir, Hn, Hc. }
    exists p, s'. split_and!; [done| |done].
    by destruct (CacheData_ok E self s p s' Hwf Heq) as (_ & Hc' & _).
Qed.

Lemma metadata_files_load_independently_witness :
  ∃ p s', ABC_WalletCacheData collaborators W2 (initial disk2)
          = (ABC_CC_Ok, p, s') ∧
          cached s' (id W2) p ∧
          heap s' !! p
          = Some (mkWalletData (Some "W2"%string) (Some "Savings"%string)
                    (Some "sync2"%string) (-1)
                    (Some key2) (Some [Byte.x0a; Byte.x0b])).
Proof.
  destruct (metadata_files_load_independently collaborators W2
              (initial disk2) key2 [Byte.x0a; Byte.x0b] "sync2")
    as (_ & _ & _ & _ & H).
  - apply wf_initial.
  - vm_compute. reflexivity.
  - vm_compute. reflexivity.
  - vm_compute. reflexivity.
  - apply (H "Savings"%string (-1)%Z); vm_compute; reflexivity.
Defined.

(** C8. [ABC_WalletGetInfo] is all-or-nothing. When it reports an error,
    no snapshot is assigned to the caller's pointer, and the error is that
    of the first step that failed: the record load, else the archived-flag
    lookup, else the balance computation. When it reports success, all
    three steps succeeded and the snapshot holds the wallet's id, the name
    and the currency number of the cached record, the archived flag and the
    balance. *)
Theorem getInfo_all_or_nothing {World}
    (E : Collaborators World) (self : Wallet) (s : State World)
    (cc : tABC_CC) (info : option tABC_WalletInfo) (s' : State World) :
  cache_wf s →
  ABC_WalletGetInfo E self s = (cc, info, s') →
  (cc ≠ ABC_CC_Ok →
     info = None ∧
     ((ABC_WalletCacheData E self s).1.1 = cc
      ∨ ((ABC_WalletCacheData E self s).1.1 = ABC_CC_Ok ∧
         (wallets_archived E (world s') (id self)).1 = cc)
      ∨ ((ABC_WalletCacheData E self s).1.1 = ABC_CC_Ok ∧
         (wallets_archived E (world s') (id self)).1 = ABC_CC_Ok ∧
         (wallet_balance E (world s') (id self)).1 = cc)))
  ∧ (cc = ABC_CC_Ok →
     ∃ p d name archived balance,
       ABC_WalletCacheData E self s = (ABC_CC_Ok, p, s') ∧
       cached s' (id self) p ∧ heap s' !! p = Some d ∧
       szName d = Some name ∧
       wallets_archived E (world s') (id self) = (ABC_CC_Ok, archived) ∧
       wallet_balance E (world s') (id self) = (ABC_CC_Ok, balance) ∧
       info = Some (mkWalletInfo (Some (id self)) (Some name)
                      (currencyNum d) archived balance)).
Proof.
  intros Hwf Heq. rewrite GetInfo_spec in Heq.
  destruct (ABC_WalletCacheData E self s) as [[cc1 p] s1] eqn:Hload.
  simpl. case_decide as H1.
  2:{ simplify_eq. split; [intros _; split; [done | by left] | done]. }
  subst cc1. cbv zeta in Heq.
  destruct (wallets_archived E (world s1) (id self)) as [cc2 archived] eqn:Ha.
  case_decide as H2.
  2:{ simplify_eq. rewrite Ha. split; [|done].
      intros _. split; [done|]. right; left. done. }
  subst cc2.
  destruct (wallet_balance E (world s1) (id self)) as [cc3 balance] eqn:Hb.
  case_decide as H3.
  2:{ simplify_eq. rewrite Ha, Hb. split; [|done].
      intros _. split; [done|]. right; right. done. }
  subst cc3. simplify_eq. split; [done|]. intros _.
  destruct (CacheData_ok E self s p s' Hwf Hload)
    as (_ & Hc & _ & d & Hd & Hpop & _).
  destruct Hpop as (_ & [name Hname] & _).
  exists p, d, name, archived, balance.
  split_and!; try done.
  unfold deref. rewrite Hd. simpl. by rewrite Hname.
Qed.

Lemma getInfo_all_or_nothing_witness :
  ∃ p d name archived balance,
    ABC_WalletCacheData collaborators W2 (initial disk2)
    = (ABC_CC_Ok, p, loaded2) ∧
    cached loaded2 (id W2) p ∧ heap loaded2 !! p = Some d ∧
    szName d = Some name ∧
    wallets_archived collaborators (world loaded2) (id W2)
    = (ABC_CC_Ok, archived) ∧
    wallet_balance collaborators (world loaded2) (id W2)
    = (ABC_CC_Ok, balance) ∧
    Some (mkWalletInfo (Some "W2"%string) (Some "Savings"%string) (-1) true 120)
    = Some (mkWalletInfo (Some (id W2)) (Some name) (currencyNum d)
              archived balance).
Proof.
  refine (proj2 (getInfo_all_or_nothing collaborators W2 (initial disk2)
                   ABC_CC_Ok
                   (Some (mkWalletInfo (Some "W2"%string)
                            (Some "Savings"%string) (-1) true 120))
                   loaded2 _ _) eq_refl).
  - apply wf_initial.
  - vm_compute. reflexivity.
Defined.

(** C9, as the code has it. [ABC_WalletClearCache] passes every cached
    record to [ABC_WalletFreeData], which releases the record's UUID
    string, name string, master-key buffer and seed buffer and resets its
    currency number to -1, and it leaves the cache empty (count 0, array
    NULL). For an identity that was loaded before the clear, and provided
    the world is still as that load left it, a call of
    [ABC_WalletCacheData] after the clear takes the populate path again,
    builds a new struct at an address that was not in the cache, and the
    record it caches has the same field values as the record of the
    earlier load. *)
Theorem clear_then_reload_gives_equal_record {World}
    (E : Collaborators World) (self : Wallet)
    (s0 s1 s : State World) (p1 : ptr) :
  cache_wf s0 → uncached s0 (id self) →
  ABC_WalletCacheData E self s0 = (ABC_CC_Ok, p1, s1) →
  cache_wf s → world s = world s1 →
  gWalletsCacheCount (ABC_WalletClearCache s) = 0 ∧
  gaWalletsCacheArray (ABC_WalletClearCache s) = None ∧
  (∀ q d', q ∈ entries s →
           heap (ABC_WalletClearCache s) !! q = Some d' →
           szUUID d' = None ∧ szName d' = None ∧ MK d' = None ∧
           BitcoinPrivateSeed d' = None ∧ currencyNum d' = (-1)%Z) ∧
  ABC_WalletCacheData E self (ABC_WalletClearCache s)
  = ABC_WalletCacheData_populate E self (ABC_WalletClearCache s) ∧
  ∃ p2 s3,
    ABC_WalletCacheData E self (ABC_WalletClearCache s)
    = (ABC_CC_Ok, p2, s3) ∧
    (p2 ∉ entries s) ∧
    cached s3 (id self) p2 ∧
    entries s3 = [p2] ∧
    heap s3 !! p2 = heap s1 !! p1.
Proof.
  intros Hwf0 Hun0 Hload Hwf Hw.
  destruct (CacheData_loaded E self s0 p1 s1 Hwf0 Hun0 Hload)
    as (d & Hl & Hd & _).
  destruct (CacheData_ok E self s0 p1 s1 Hwf0 Hload) as (_ & _ & Hw1 & _).
  pose proof (wf_ClearCache s Hwf) as Hwfc.
  assert (ABC_WalletClearCache s
          = mkState (foldl (λ h pData, ABC_WalletFreeData pData h) (heap s)
                       (entries s)) 0 None (world s)) as Hclear
    by by apply clear_spec.
  assert (uncached (ABC_WalletClearCache s) (id self)) as Hunc.
  { rewrite Hclear. done. }
  assert (world (ABC_WalletClearCache s) = world s0) as Hwc.
  { rewrite Hclear. simpl. congruence. }
  split_and!.
  - by rewrite Hclear.
  - by rewrite Hclear.
  - intros q d' Hq. rewrite Hclear. simpl. rewrite free_all_lookup.
    rewrite decide_True.
    + destruct (heap s !! q) as [dq|]; simpl; [|done].
      intros Heq. inversion Heq; subst d'. done.
    + split; [done|]. intros ->.
      destruct (wf_entry_live s NULL Hwf Hq) as [? Hlive].
      by rewrite (wf_null s Hwf) in Hlive.
  - by apply CacheData_miss.
  - destruct (load_succeeds E self (ABC_WalletClearCache s) d Hwfc Hunc)
      as (p2 & s3 & Heq & Hfresh & Hd2).
    { by rewrite Hwc. }
    exists p2, s3.
    destruct (CacheData_ok E self _ p2 s3 Hwfc Heq) as (_ & Hc & _).
    split_and!; [done| |done| |congruence].
    + intros Hin. rewrite Hclear in Hfresh. simpl in Hfresh.
      rewrite free_all_lookup in Hfresh.
      destruct (wf_entry_live s p2 Hwf Hin) as [d2 Hlive].
      rewrite Hlive in Hfresh. by case_decide.
    + rewrite CacheData_miss in Heq by done.
      rewrite (populate_ok E self _ d Hwfc Hunc) in Heq by (by rewrite Hwc).
      simplify_eq. rewrite Hclear. done.
Qed.

Lemma clear_then_reload_gives_equal_record_witness :
  (∀ q d', q ∈ entries loaded2 →
           heap (ABC_WalletClearCache loaded2) !! q = Some d' →
           szUUID d' = None ∧ szName d' = None ∧ MK d' = None ∧
           BitcoinPrivateSeed d' = None ∧ currencyNum d' = (-1)%Z) ∧
  ABC_WalletCacheData collaborators W2 (ABC_WalletClearCache loaded2)
  = ABC_WalletCacheData_populate collaborators W2
      (ABC_WalletClearCache loaded2) ∧
  ∃ p2 s3,
    ABC_WalletCacheData collaborators W2 (ABC_WalletClearCache loaded2)
    = (ABC_CC_Ok, p2, s3) ∧
    (p2 ∉ entries loaded2) ∧
    cached s3 (id W2) p2 ∧
    entries s3 = [p2] ∧
    heap s3 !! p2 = heap loaded2 !! 1.
Proof.
  refine (proj2 (proj2
    (clear_then_reload_gives_equal_record collaborators W2
       (initial disk2) loaded2 loaded2 1 _ _ _ _ _))).
  - apply wf_initial.
  - vm_compute. reflexivity.
  - vm_compute. reflexivity.
  - apply wf_CacheData, wf_initial.
  - reflexivity.
Defined.

(** C9 as stated fails, in two ways. After the clear of a cache holding
    wallet "W2" the struct of that wallet is still in the heap, with its
    sync-account key string in place: [ABC_WalletClearCache] does not
    destroy the record. And when the wallet was renamed between its load
    and the clear, the reload yields the new name "New", not the name
    "Savings" of the earlier load. *)
Lemma clear_keeps_struct_and_reload_reads_disk :
  heap (ABC_WalletClearCache loaded2) !! 1
  = Some (mkWalletData None None (Some "sync2"%string) (-1) None None) ∧
  ¬ clearDestroysRecords loaded2 ∧
  (szName <$> heap loaded2 !! 1) = Some (Some "Savings"%string) ∧
  (∃ p2 s3,
     ABC_WalletCacheData collaborators W2 (ABC_WalletClearCache renamed2)
     = (ABC_CC_Ok, p2, s3) ∧
     (szName <$> heap s3 !! p2) = Some (Some "New"%string)) ∧
  ¬ reloadEqualsEarlierLoad collaborators W2 (initial disk2) renamed2.
Proof.
  assert (heap (ABC_WalletClearCache loaded2) !! 1
          = Some (mkWalletData None None (Some "sync2"%string) (-1)
                    None None)) as Hkept
    by (vm_compute; reflexivity).
  split_and!.
  - exact Hkept.
  - intros Hall.
    assert (1 ∈ entries loaded2) as Hin by (vm_compute; left).
    pose proof (Hall 1 Hin) as Hgone. vm_compute in Hgone. discriminate.
  - vm_compute. reflexivity.
  - eexists _, _. split; vm_compute; reflexivity.
  - intros Hall.
    destruct (Hall 1 loaded2) as (p2 & s3 & Hre & Heq).
    + vm_compute. reflexivity.
    + vm_compute. reflexivity.
    + split; [vm_compute; reflexivity | discriminate].
    + assert (ABC_WalletCacheData collaborators W2
                (ABC_WalletClearCache renamed2)
              = (ABC_CC_Ok, 2,
                 (ABC_WalletCacheData collaborators W2
                    (ABC_WalletClearCache renamed2)).2)) as Hre'
        by (vm_compute; reflexivity).
      rewrite Hre' in Hre. inversion Hre; subst p2 s3.
      vm_compute in Heq. discriminate.
Qed.

(** C10. For an identity that is not yet cached, when
    [ABC_WalletGetInfo] fails although its internal record load succeeded
    (so the archived-flag lookup or the balance computation failed), the
    state it leaves is the state right after the load: the freshly loaded
    record is still in the cache under the wallet's identity, and no
    snapshot is handed back. *)
Theorem getInfo_failure_keeps_loaded_record {World}
    (E : Collaborators World) (self : Wallet) (s s1 s' : State World)
    (p : ptr) (cc : tABC_CC) (info : option tABC_WalletInfo) :
  cache_wf s → uncached s (id self) →
  ABC_WalletCacheData E self s = (ABC_CC_Ok, p, s1) →
  ABC_WalletGetInfo E self s = (cc, info, s') →
  cc ≠ ABC_CC_Ok →
  s' = s1 ∧ info = None ∧ cached s' (id self) p ∧
  heap s !! p = None ∧
  (∃ d, heap s' !! p = Some d ∧ loadRecord E self (world s) = inr d) ∧
  ((wallets_archived E (world s1) (id self)).1 = cc
   ∨ (wallet_balance E (world s1) (id self)).1 = cc).
Proof.
  intros Hwf Hun Hload Heq Hcc.
  destruct (CacheData_ok E self s p s1 Hwf Hload) as (_ & Hc & _ & _).
  destruct (CacheData_loaded E self s p s1 Hwf Hun Hload)
    as (d & Hl & Hd & Hfresh).
  rewrite GetInfo_spec, Hload in Heq.
  rewrite decide_True in Heq by done. cbv zeta in Heq.
  destruct (wallets_archived E (world s1) (id self)) as [cc2 archived].
  case_decide as H2.
  2:{ simplify_eq. split_and!; eauto. }
  destruct (wallet_balance E (world s1) (id self)) as [cc3 balance].
  case_decide as H3.
  2:{ simplify_eq. split_and!; eauto. }
  by simplify_eq.
Qed.

Lemma getInfo_failure_keeps_loaded_record_witness :
  let r := ABC_WalletGetInfo collaborators W2 (initial disk2nb) in
  r.1.1 = ABC_CC_Error ∧ r.1.2 = None ∧ cached r.2 (id W2) 1.
Proof.
  destruct (getInfo_failure_keeps_loaded_record collaborators W2
              (initial disk2nb)
              (ABC_WalletCacheData collaborators W2 (initial disk2nb)).2
              (ABC_WalletGetInfo collaborators W2 (initial disk2nb)).2
              1 ABC_CC_Error
              (ABC_WalletGetInfo collaborators W2 (initial disk2nb)).1.2)
    as (_ & H2 & H3 & _).
  - apply wf_initial.
  - vm_compute. reflexivity.
  - vm_compute. reflexivity.
  - vm_compute. reflexivity.
  - discriminate.
  - split; [vm_compute; reflexivity|]. split; [exact H2 | exact H3].
Defined.

(** * Further properties of the cache operations *)

Section MoreProperties.

Context {World : Type}.
Implicit Types (s : State World) (h : gmap ptr tWalletData) (p q : ptr).
Implicit Types (E : Collaborators World) (self : Wallet).

Lemma uuid_at_live h p u : uuid_at h p = Some u → is_Some (h !! p).
Proof. unfold uuid_at. destruct (h !! p); [eauto | done]. Qed.

Lemma scanCache_app h u l l' :
  h !! NULL = None →
  scanCache h u (l ++ l')
  = if decide (scanCache h u l = NULL) then scanCache h u l'
    else scanCache h u l.
Proof.
  intros Hnull. induction l as [|q l IH]; simpl; [done|].
  destruct (decide (uuid_at h q = Some u)) as [Hq|Hq]; [|exact IH].
  rewrite decide_False; [done|]. intros ->.
  apply uuid_at_live in Hq as [? Hq]. congruence.
Qed.

Lemma scanCache_skip h u l p :
  h !! NULL = None → uuid_at h p ≠ Some u →
  scanCache h u (l ++ [p]) = scanCache h u l.
Proof.
  intros Hnull Hp. rewrite scanCache_app by done. simpl.
  rewrite (decide_False (P := uuid_at h p = Some u)) by done.
  by case_decide.
Qed.

Lemma clear_world s : world (ABC_WalletClearCache s) = world s.
Proof.
  unfold ABC_WalletClearCache.
  destruct (gaWalletsCacheArray s); [|done]. by case_decide.
Qed.

Lemma clear_heap s :
  heap (ABC_WalletClearCache s)
  = foldl (λ h pData, ABC_WalletFreeData pData h) (heap s) (entries s).
Proof.
  unfold ABC_WalletClearCache, entries.
  destruct (gaWalletsCacheArray s) as [arr|]; [|done].
  case_decide as Hc; [done|].
  assert (gWalletsCacheCount s = 0) as -> by lia. done.
Qed.

Lemma clear_entries s : entries (ABC_WalletClearCache s) = [].
Proof.
  unfold ABC_WalletClearCache, entries.
  destruct (gaWalletsCacheArray s) as [arr|] eqn:Ha; [|by rewrite Ha].
  case_decide as Hc; [done|]. rewrite Ha.
  assert (gWalletsCacheCount s = 0) as -> by lia. done.
Qed.

Lemma wf_empty_cache h (w : World) :
  h !! NULL = None → cache_wf (mkState h 0 None w).
Proof.
  intros Hn. split; simpl; [done | done | | constructor].
  intros p Hp. by apply elem_of_nil in Hp.
Qed.

Lemma set_world_same s : set_world (world s) s = s.
Proof. by destruct s. Qed.

(** The state [ABC_WalletSetName] leaves once its load succeeded: the
    struct renamed in place, and the world of the last write (or the old
    world when the write was not reached). *)
Lemma SetName_state E self n s p s1 cc s2 :
  ABC_WalletCacheData E self s = (ABC_CC_Ok, p, s1) →
  ABC_WalletSetName E self n s = (cc, s2) →
  ∃ w', s2 = set_world w' (upd_heap (alter (set_szName (Some n)) p) s1).
Proof.
  intros Hload Heq. rewrite SetName_spec, Hload in Heq.
  rewrite decide_True in Heq by done. cbv zeta in Heq.
  destruct (ABC_UtilCreateValueJSONString E n _) as [cc2 szJSON].
  case_decide.
  - destruct (ABC_CryptoEncryptJSONFile E _ _ _ _ _) as [cc3 w'].
    simplify_eq. eauto.
  - simplify_eq. exists (world s1). by destruct s1.
Qed.

Lemma SetName_load_failed E self n s cc p s1 :
  ABC_WalletCacheData E self s = (cc, p, s1) → cc ≠ ABC_CC_Ok →
  ABC_WalletSetName E self n s = (cc, s1).
Proof.
  intros Hload Hcc. rewrite SetName_spec, Hload. by rewrite decide_False.
Qed.

(** A call of [ABC_WalletCacheData] keeps every entry that was cached,
    and the struct behind it. *)
Lemma CacheData_frame E self s cc p s1 u q :
  cache_wf s → cached s u q →
  ABC_WalletCacheData E self s = (cc, p, s1) →
  cached s1 u q ∧ heap s1 !! q = heap s !! q.
Proof.
  intros Hwf Hq Heq.
  destruct (CacheData_cases E self s)
    as [(r & Hr & Hc)|[(cc' & _ & _ & _ & Hc)|(d & Hu & Hl & Hc)]].
  - rewrite Hc in Heq. by simplify_eq.
  - rewrite Hc in Heq. by simplify_eq.
  - rewrite Hc in Heq by done. simplify_eq.
    destruct (cached_entry _ _ _ Hq) as [Hin Huq].
    destruct (wf_entry_live s q Hwf Hin) as [dq Hdq].
    assert (q ≠ malloc (heap s)) as Hne.
    { intros ->. rewrite malloc_fresh in Hdq. done. }
    split; [|simpl; by rewrite lookup_insert_ne].
    pose proof (wf_CacheData E self s Hwf) as Hwf'.
    rewrite Hc in Hwf' by done. simpl in Hwf'.
    apply cached_spec. split; [|by destruct Hq].
    apply scanCache_hit.
    + apply (wf_nodup _ Hwf').
    + rewrite entries_append by done. apply elem_of_app. by left.
    + unfold uuid_at; simpl. rewrite lookup_insert_ne by done. exact Huq.
Qed.

Lemma cached_inj s u u' p : cached s u p → cached s u' p → u = u'.
Proof.
  intros [_ H1]%cached_entry [_ H2]%cached_entry. congruence.
Qed.

End MoreProperties.

(** X1. Adding a live struct whose UUID is not yet cached succeeds, puts
    its pointer at the end of the cache array and raises the count by one;
    from then on the lookup of that UUID returns this pointer, the lookup
    of every other UUID returns what it returned before, and neither the
    heap nor the world has changed. *)
Theorem add_then_lookup {World} (s : State World) (p : ptr)
    (d : tWalletData) (u : string) :
  cache_wf s → p ≠ NULL → heap s !! p = Some d → szUUID d = Some u →
  uncached s u →
  ∃ s', ABC_WalletAddToCache p s = (ABC_CC_Ok, tt, s') ∧
        ABC_WalletGetFromCacheByUUID (Some u) s' = (ABC_CC_Ok, p) ∧
        entries s' = entries s ++ [p] ∧
        gWalletsCacheCount s' = S (gWalletsCacheCount s) ∧
        heap s' = heap s ∧ world s' = world s ∧
        (∀ u', u' ≠ u →
               ABC_WalletGetFromCacheByUUID (Some u') s'
               = ABC_WalletGetFromCacheByUUID (Some u') s).
Proof.
  intros Hwf Hp Hd Hu Hun.
  assert (uuid_at (heap s) p = Some u) as Hup.
  { unfold uuid_at. by rewrite Hd. }
  eexists. split; [by apply (add_absent s p u)|].
  pose proof (entries_append s (heap s) p (world s) Hwf) as Hent.
  split_and!; try done.
  - rewrite lookup_spec, Hent. simpl.
    rewrite scanCache_app by apply (wf_null s Hwf).
    apply uncached_spec in Hun. rewrite Hun. simpl.
    by rewrite decide_True.
  - intros u' Hne. rewrite !lookup_spec, Hent. simpl. f_equal.
    apply scanCache_skip; [apply (wf_null s Hwf)|]. congruence.
Qed.

Lemma add_then_lookup_witness :
  ∃ s', ABC_WalletAddToCache 7 withOrphan = (ABC_CC_Ok, tt, s') ∧
        ABC_WalletGetFromCacheByUUID (Some "W9"%string) s' = (ABC_CC_Ok, 7) ∧
        entries s' = entries withOrphan ++ [7] ∧
        gWalletsCacheCount s' = S (gWalletsCacheCount withOrphan) ∧
        heap s' = heap withOrphan ∧ world s' = world withOrphan ∧
        (∀ u', u' ≠ "W9"%string →
               ABC_WalletGetFromCacheByUUID (Some u') s'
               = ABC_WalletGetFromCacheByUUID (Some u') withOrphan).
Proof.
  apply (add_then_lookup withOrphan 7 orphan "W9").
  - apply wf_insert_fresh; [apply wf_CacheData, wf_initial | |discriminate].
    vm_compute. reflexivity.
  - discriminate.
  - vm_compute. reflexivity.
  - reflexivity.
  - vm_compute. reflexivity.
Defined.

(** X2. Whenever [ABC_WalletAddToCache] reports an error it has changed
    nothing, and the error is one of two: [ABC_CC_NULLPtr], when the
    pointer is NULL or the struct carries no UUID, or
    [ABC_CC_WalletAlreadyExists], when the struct's UUID is already
    cached. *)
Theorem add_error_changes_nothing {World} (s s' : State World) (p : ptr)
    (cc : tABC_CC) :
  ABC_WalletAddToCache p s = (cc, tt, s') → cc ≠ ABC_CC_Ok →
  s' = s ∧
  ((cc = ABC_CC_NULLPtr ∧ (p = NULL ∨ uuid_at (heap s) p = None))
   ∨ (cc = ABC_CC_WalletAlreadyExists ∧
      ∃ u q, uuid_at (heap s) p = Some u ∧ cached s u q)).
Proof.
  unfold ABC_WalletAddToCache. intros Heq Hcc.
  case_decide as Hp.
  { simplify_eq. split; [done|]. left. eauto. }
  destruct (uuid_at (heap s) p) as [u|] eqn:Hu.
  - rewrite lookup_spec in Heq. rewrite decide_True in Heq by done.
    case_decide as Hs.
    + by destruct (gaWalletsCacheArray s); [case_decide|]; simplify_eq.
    + inversion Heq; subst cc s'. split; [done|]. right. split; [done|].
      exists u, (scanCache (heap s) u (entries s)). split; [done|].
      by apply cached_spec.
  - simpl in Heq. inversion Heq; subst cc s'. split; [done|]. left. eauto.
Qed.

Lemma add_error_changes_nothing_witness :
  (ABC_WalletAddToCache 1 loaded2).2 = loaded2 ∧
  ((ABC_CC_WalletAlreadyExists = ABC_CC_NULLPtr ∧
    (1 = NULL ∨ uuid_at (heap loaded2) 1 = None))
   ∨ (ABC_CC_WalletAlreadyExists = ABC_CC_WalletAlreadyExists ∧
      ∃ u q, uuid_at (heap loaded2) 1 = Some u ∧ cached loaded2 u q)).
Proof.
  apply (add_error_changes_nothing loaded2 (ABC_WalletAddToCache 1 loaded2).2
           1 ABC_CC_WalletAlreadyExists).
  - vm_compute. reflexivity.
  - discriminate.
Defined.

(** X3. In a well-formed cache the lookup is exact: it returns the
    pointer [p] for the UUID [u] if and only if [p] is an entry of the
    cache array whose struct carries the UUID [u]. *)
Theorem lookup_finds_exactly_the_entry {World} (s : State World)
    (u : string) (p : ptr) :
  cache_wf s →
  (cached s u p ↔ p ∈ entries s ∧ uuid_at (heap s) p = Some u).
Proof.
  intros Hwf. split; [apply cached_entry|].
  intros [Hin Hu]. apply cached_spec. split.
  - apply scanCache_hit; [apply (wf_nodup s Hwf) | done | done].
  - intros ->. apply uuid_at_live in Hu as [? Hu].
    by rewrite (wf_null s Hwf) in Hu.
Qed.

Lemma lookup_finds_exactly_the_entry_witness :
  cached loaded21 "W1" 2 ↔
  2 ∈ entries loaded21 ∧ uuid_at (heap loaded21) 2 = Some "W1"%string.
Proof.
  apply (lookup_finds_exactly_the_entry loaded21 "W1" 2).
  apply wf_CacheData, wf_CacheData, wf_initial.
Defined.

(** X4. Clearing the cache twice is the same as clearing it once: the
    second call finds the count at zero and changes nothing. *)
Theorem clear_is_idempotent {World} (s : State World) :
  ABC_WalletClearCache (ABC_WalletClearCache s) = ABC_WalletClearCache s.
Proof.
  unfold ABC_WalletClearCache.
  destruct (gaWalletsCacheArray s) as [arr|] eqn:Ha.
  - destruct (decide (0 < gWalletsCacheCount s)) as [Hc|Hc]; simpl; [done|].
    rewrite Ha. by rewrite decide_False.
  - by rewrite Ha.
Qed.

(** X5. [ABC_WalletClearCache] touches nothing outside the cache: the
    world is unchanged and so is every struct of the heap that was not an
    entry of the cache array. *)
Theorem clear_leaves_other_structs {World} (s : State World) (q : ptr) :
  q ∉ entries s →
  heap (ABC_WalletClearCache s) !! q = heap s !! q ∧
  world (ABC_WalletClearCache s) = world s.
Proof.
  intros Hq. split; [|apply clear_world].
  rewrite clear_heap, free_all_lookup. rewrite decide_False; [done|]. tauto.
Qed.

Lemma clear_leaves_other_structs_witness :
  heap (ABC_WalletClearCache withOrphan) !! 7 = Some orphan ∧
  world (ABC_WalletClearCache withOrphan) = world withOrphan.
Proof.
  apply (clear_leaves_other_structs withOrphan 7).
  vm_compute. intros H. inversion H; subst.
  match goal with H' : _ ∈ [] |- _ => inversion H' end.
Defined.

(** X6. [ABC_WalletClearCache] releases less than it holds: no struct
    leaves the heap (the structs themselves are never freed), and the
    sync-account key string of every struct is still in place. *)
Theorem clear_keeps_structs_and_sync_keys {World} (s : State World) :
  dom (heap (ABC_WalletClearCache s)) = dom (heap s) ∧
  ∀ q, (szWalletAcctKey <$> heap (ABC_WalletClearCache s) !! q)
       = (szWalletAcctKey <$> heap s !! q).
Proof.
  assert (∀ q, (szWalletAcctKey <$> heap (ABC_WalletClearCache s) !! q)
               = (szWalletAcctKey <$> heap s !! q)) as Hkey.
  { intros q. rewrite clear_heap, free_all_lookup.
    case_decide; [|done]. by destruct (heap s !! q). }
  split; [|done].
  apply set_eq. intros q. rewrite !elem_of_dom.
  specialize (Hkey q).
  destruct (heap (ABC_WalletClearCache s) !! q), (heap s !! q);
    simpl in Hkey; try done; split; intros [? ?]; done.
Qed.

(** X7. After [ABC_WalletClearCache], whatever the state was, no
    identity is found in the cache. *)
Theorem clear_uncaches_everything {World} (s : State World) (u : string) :
  uncached (ABC_WalletClearCache s) u.
Proof. apply uncached_spec. by rewrite clear_entries. Qed.

(** X8. Once the load inside [ABC_WalletSetName] has succeeded, a
    following [ABC_WalletGetInfo] that succeeds reports the new name,
    whether or not the name could be written to disk; it takes the record
    from the cache and leaves the state as it found it. *)
Theorem setName_then_getInfo_shows_new_name {World}
    (E : Collaborators World) (self : Wallet) (szNewName : string)
    (s s1 s2 s3 : State World) (p : ptr) (cc : tABC_CC)
    (info : option tABC_WalletInfo) :
  cache_wf s →
  ABC_WalletCacheData E self s = (ABC_CC_Ok, p, s1) →
  ABC_WalletSetName E self szNewName s = (cc, s2) →
  ABC_WalletGetInfo E self s2 = (ABC_CC_Ok, info, s3) →
  s3 = s2 ∧
  ∃ i, info = Some i ∧ info_szName i = Some szNewName ∧
       info_szUUID i = Some (id self).
Proof.
  intros Hwf Hload Hset Hget.
  destruct (CacheData_ok E self s p s1 Hwf Hload)
    as (_ & Hc & _ & d & Hd & _).
  destruct (SetName_state E self szNewName s p s1 cc s2 Hload Hset)
    as [w' ->].
  assert (cached (set_world w' (upd_heap (alter (set_szName (Some szNewName)) p) s1))
            (id self) p) as Hc2
    by by apply cached_set_world, cached_rename.
  rewrite GetInfo_spec, (CacheData_hit E self _ p Hc2) in Hget.
  rewrite decide_True in Hget by done. cbv zeta in Hget.
  destruct (wallets_archived E _ _) as [cc2 archived].
  case_decide; [|by simplify_eq].
  destruct (wallet_balance E _ _) as [cc3 balance].
  case_decide; [|by simplify_eq].
  inversion Hget; subst. split; [done|]. eexists. split; [done|].
  simpl. unfold deref. simpl.
  rewrite lookup_alter, decide_True, Hd by done. done.
Qed.

Lemma setName_then_getInfo_shows_new_name_witness :
  (ABC_WalletGetInfo collaborators W1
     (ABC_WalletSetName collaborators W1 "My Wallet" (initial disk0)).2).2
  = (ABC_WalletSetName collaborators W1 "My Wallet" (initial disk0)).2 ∧
  ∃ i, (ABC_WalletGetInfo collaborators W1
          (ABC_WalletSetName collaborators W1 "My Wallet" (initial disk0)).2).1.2
       = Some i ∧
       info_szName i = Some "My Wallet"%string ∧
       info_szUUID i = Some (id W1).
Proof.
  apply (setName_then_getInfo_shows_new_name collaborators W1 "My Wallet"
           (initial disk0)
           (ABC_WalletCacheData collaborators W1 (initial disk0)).2
           (ABC_WalletSetName collaborators W1 "My Wallet" (initial disk0)).2
           _ 1 ABC_CC_FileWriteError).
  - apply wf_initial.
  - vm_compute. reflexivity.
  - vm_compute. reflexivity.
  - vm_compute. reflexivity.
Defined.

(** X9. [ABC_WalletSetName] on one wallet leaves every other cached
    wallet alone: it is still found in the cache at the same pointer and
    its struct is unchanged, whatever the outcome of the call. *)
Theorem setName_leaves_other_wallets {World}
    (E : Collaborators World) (self : Wallet) (szNewName : string)
    (s s2 : State World) (cc : tABC_CC) (u : string) (q : ptr) :
  cache_wf s → cached s u q → u ≠ id self →
  ABC_WalletSetName E self szNewName s = (cc, s2) →
  cached s2 u q ∧ heap s2 !! q = heap s !! q.
Proof.
  intros Hwf Hq Hne Hset.
  destruct (ABC_WalletCacheData E self s) as [[cc1 p] s1] eqn:Hload.
  destruct (CacheData_frame E self s cc1 p s1 u q Hwf Hq Hload) as [Hq1 Hh].
  destruct (decide (cc1 = ABC_CC_Ok)) as [->|Hcc].
  - destruct (CacheData_ok E self s p s1 Hwf Hload) as (_ & Hc & _).
    destruct (SetName_state E self szNewName s p s1 cc s2 Hload Hset)
      as [w' ->].
    split; [by apply cached_set_world, cached_rename|].
    simpl. rewrite lookup_alter_ne; [done|].
    intros ->. apply Hne. by eapply cached_inj.
  - rewrite (SetName_load_failed E self szNewName s cc1 p s1 Hload Hcc)
      in Hset.
    by simplify_eq.
Qed.

Lemma setName_leaves_other_wallets_witness :
  cached (ABC_WalletSetName collaborators W1 "A" loaded21).2 "W2" 1 ∧
  heap (ABC_WalletSetName collaborators W1 "A" loaded21).2 !! 1
  = heap loaded21 !! 1.
Proof.
  apply (setName_leaves_other_wallets collaborators W1 "A" loaded21 _
           (ABC_WalletSetName collaborators W1 "A" loaded21).1).
  - apply wf_CacheData, wf_CacheData, wf_initial.
  - split; [vm_compute; reflexivity | discriminate].
  - discriminate.
  - vm_compute. reflexivity.
Defined.

(** X10. On a wallet that is already cached, [ABC_WalletSetName] changes
    one thing in memory, the name of that wallet's struct: the keys, the
    UUID and the currency of the struct, all other structs, the cache array
    and its count are as before, whether the call succeeds or fails. *)
Theorem setName_changes_only_the_name {World}
    (E : Collaborators World) (self : Wallet) (szNewName : string)
    (s s2 : State World) (cc : tABC_CC) (p : ptr) (d : tWalletData) :
  cached s (id self) p → heap s !! p = Some d →
  ABC_WalletSetName E self szNewName s = (cc, s2) →
  heap s2 = <[p := set_szName (Some szNewName) d]> (heap s) ∧
  gaWalletsCacheArray s2 = gaWalletsCacheArray s ∧
  gWalletsCacheCount s2 = gWalletsCacheCount s.
Proof.
  intros Hc Hd Hset.
  destruct (SetName_state E self szNewName s p s cc s2
              (CacheData_hit E self s p Hc) Hset) as [w' ->].
  split; [|done]. simpl. apply map_eq. intros q.
  rewrite lookup_alter. case_decide; [subst|].
  - by rewrite lookup_insert_eq, Hd.
  - by rewrite lookup_insert_ne.
Qed.

Lemma setName_changes_only_the_name_witness :
  heap (ABC_WalletSetName collaborators W2 "New" loaded2).2
  = <[1 := mkWalletData (Some "W2"%string) (Some "New"%string)
             (Some "sync2"%string) (-1) (Some key2)
             (Some [Byte.x0a; Byte.x0b])]> (heap loaded2) ∧
  gaWalletsCacheArray (ABC_WalletSetName collaborators W2 "New" loaded2).2
  = gaWalletsCacheArray loaded2 ∧
  gWalletsCacheCount (ABC_WalletSetName collaborators W2 "New" loaded2).2
  = gWalletsCacheCount loaded2.
Proof.
  apply (setName_changes_only_the_name collaborators W2 "New" loaded2 _
           (ABC_WalletSetName collaborators W2 "New" loaded2).1 1
           (mkWalletData (Some "W2"%string) (Some "Savings"%string)
              (Some "sync2"%string) (-1) (Some key2)
              (Some [Byte.x0a; Byte.x0b]))).
  - split; [vm_compute; reflexivity | discriminate].
  - vm_compute. reflexivity.
  - vm_compute. reflexivity.
Defined.

(** X11. When the wallet is not cached and cannot be loaded,
    [ABC_WalletSetName] returns the load's error having changed nothing:
    no struct is renamed, nothing is added to the cache, and the world is
    untouched, so no write was made. *)
Theorem setName_on_unloadable_wallet {World}
    (E : Collaborators World) (self : Wallet) (szNewName : string)
    (s : State World) :
  cache_wf s → uncached s (id self) →
  (ABC_WalletCacheData E self s).1.1 ≠ ABC_CC_Ok →
  ABC_WalletSetName E self szNewName s
  = ((ABC_WalletCacheData E self s).1.1, s).
Proof.
  intros Hwf Hun Hcc.
  destruct (ABC_WalletCacheData E self s) as [[cc p] s1] eqn:Hload.
  simpl in *.
  rewrite (SetName_load_failed E self szNewName s cc p s1 Hload Hcc).
  destruct (CacheData_cases E self s)
    as [(r & Hr & Hc)|[(cc' & _ & _ & _ & Hc)|(d & _ & _ & Hc)]].
  - rewrite Hc in Hload. by simplify_eq.
  - rewrite Hc in Hload. by simplify_eq.
  - rewrite Hc in Hload by done. by simplify_eq.
Qed.

Lemma setName_on_unloadable_wallet_witness :
  ABC_WalletSetName collaborators W3 "A" (initial disk3)
  = ((ABC_WalletCacheData collaborators W3 (initial disk3)).1.1,
     initial disk3).
Proof.
  apply (setName_on_unloadable_wallet collaborators W3 "A" (initial disk3)).
  - apply wf_initial.
  - vm_compute. reflexivity.
  - vm_compute. discriminate.
Defined.

(** X12. [ABC_WalletGetInfo] on a wallet that is already cached is
    read-only: the state after the call is the state before it, whether
    the call succeeds or fails. *)
Theorem getInfo_is_read_only_on_cached {World}
    (E : Collaborators World) (self : Wallet) (s : State World) (p : ptr) :
  cached s (id self) p →
  (ABC_WalletGetInfo E self s).2 = s.
Proof.
  intros Hc. rewrite GetInfo_state. by rewrite (CacheData_hit E self s p Hc).
Qed.

Lemma getInfo_is_read_only_on_cached_witness :
  (ABC_WalletGetInfo collaborators W2 loaded2).2 = loaded2.
Proof.
  apply (getInfo_is_read_only_on_cached collaborators W2 loaded2 1).
  split; [vm_compute; reflexivity | discriminate].
Defined.

(** X13. A successful [ABC_WalletGetInfo] can be repeated: called again
    on the state it left, it succeeds with the same snapshot and leaves
    that state unchanged. *)
Theorem getInfo_is_repeatable {World}
    (E : Collaborators World) (self : Wallet) (s s1 : State World)
    (info : option tABC_WalletInfo) :
  cache_wf s →
  ABC_WalletGetInfo E self s = (ABC_CC_Ok, info, s1) →
  ABC_WalletGetInfo E self s1 = (ABC_CC_Ok, info, s1).
Proof.
  intros Hwf Hget. rewrite GetInfo_spec in Hget.
  destruct (ABC_WalletCacheData E self s) as [[cc1 p] s1'] eqn:Hload.
  case_decide as H1; [subst cc1|by simplify_eq]. cbv zeta in Hget.
  destruct (wallets_archived E (world s1') (id self))
    as [cc2 archived] eqn:Ha.
  case_decide as H2; [subst cc2|by simplify_eq].
  destruct (wallet_balance E (world s1') (id self)) as [cc3 balance] eqn:Hb.
  case_decide as H3; [subst cc3|by simplify_eq].
  inversion Hget; subst.
  destruct (CacheData_ok E self s p s1 Hwf Hload) as (_ & Hc & _).
  rewrite GetInfo_spec, (CacheData_hit E self s1 p Hc).
  rewrite decide_True by done. cbv zeta. rewrite Ha.
  rewrite decide_True by done. rewrite Hb. by rewrite decide_True.
Qed.

Lemma getInfo_is_repeatable_witness :
  ABC_WalletGetInfo collaborators W2 loaded2
  = (ABC_CC_Ok,
     Some (mkWalletInfo (Some "W2"%string) (Some "Savings"%string)
             (-1) true 120), loaded2).
Proof.
  apply (getInfo_is_repeatable collaborators W2 (initial disk2) loaded2).
  - apply wf_initial.
  - vm_compute. reflexivity.
Defined.

(** X14. When the wallet is not cached and cannot be loaded,
    [ABC_WalletGetInfo] returns the load's error, assigns no snapshot and
    leaves the state exactly as it was. *)
Theorem getInfo_on_unloadable_wallet {World}
    (E : Collaborators World) (self : Wallet) (s : State World) :
  cache_wf s → uncached s (id self) →
  (ABC_WalletCacheData E self s).1.1 ≠ ABC_CC_Ok →
  ABC_WalletGetInfo E self s
  = ((ABC_WalletCacheData E self s).1.1, None, s).
Proof.
  intros Hwf Hun Hcc. rewrite GetInfo_spec.
  destruct (ABC_WalletCacheData E self s) as [[cc p] s1] eqn:Hload.
  simpl in *. rewrite decide_False by done.
  destruct (CacheData_cases E self s)
    as [(r & Hr & Hc)|[(cc' & _ & _ & _ & Hc)|(d & _ & _ & Hc)]].
  - rewrite Hc in Hload. by simplify_eq.
  - rewrite Hc in Hload. by simplify_eq.
  - rewrite Hc in Hload by done. by simplify_eq.
Qed.

Lemma getInfo_on_unloadable_wallet_witness :
  ABC_WalletGetInfo collaborators W3 (initial disk3)
  = ((ABC_WalletCacheData collaborators W3 (initial disk3)).1.1, None,
     initial disk3).
Proof.
  apply (getInfo_on_unloadable_wallet collaborators W3 (initial disk3)).
  - apply wf_initial.
  - vm_compute. reflexivity.
  - vm_compute. discriminate.
Defined.

Section GrowthAndWorld.

Context {World : Type}.
Implicit Types (s : State World) (E : Collaborators World) (self : Wallet).

Lemma CacheData_entries_prefix E self s :
  cache_wf s → entries s `prefix_of` entries (ABC_WalletCacheData E self s).2.
Proof.
  intros Hwf.
  destruct (CacheData_cases E self s)
    as [(r & Hr & ->)|[(cc' & _ & _ & _ & ->)|(d & _ & _ & Hc)]]; [done..|].
  rewrite Hc by done. simpl. rewrite entries_append by done.
  by apply prefix_app_r.
Qed.

Lemma SetName_entries E self n s :
  entries (ABC_WalletSetName E self n s).2
  = entries (ABC_WalletCacheData E self s).2.
Proof.
  rewrite SetName_spec.
  destruct (ABC_WalletCacheData E self s) as [[cc1 p] s1]; simpl.
  case_decide; [|done].
  destruct (ABC_UtilCreateValueJSONString E n _) as [cc2 szJSON].
  case_decide; [|done].
  by destruct (ABC_CryptoEncryptJSONFile E _ _ _ _ _) as [cc3 w'].
Qed.

Lemma GetInfo_world E self s : world (ABC_WalletGetInfo E self s).2 = world s.
Proof. rewrite GetInfo_state. apply CacheData_world. Qed.

End GrowthAndWorld.

(** X15. A call of [ABC_WalletCacheData] for one wallet, whatever its
    outcome, keeps every wallet that was cached before: it is still found
    at the same pointer and its struct is unchanged. *)
Theorem load_keeps_cached_wallets {World}
    (E : Collaborators World) (self : Wallet) (s s1 : State World)
    (cc : tABC_CC) (p : ptr) (u : string) (q : ptr) :
  cache_wf s → cached s u q →
  ABC_WalletCacheData E self s = (cc, p, s1) →
  cached s1 u q ∧ heap s1 !! q = heap s !! q.
Proof. apply CacheData_frame. Qed.

Lemma load_keeps_cached_wallets_witness :
  cached loaded21 "W2" 1 ∧ heap loaded21 !! 1 = heap loaded2 !! 1.
Proof.
  apply (load_keeps_cached_wallets collaborators W1 loaded2 loaded21
           ABC_CC_Ok 2 "W2" 1).
  - apply wf_CacheData, wf_initial.
  - split; [vm_compute; reflexivity | discriminate].
  - vm_compute. reflexivity.
Defined.

(** X16. Only [ABC_WalletClearCache] removes entries: after a getOrLoad,
    a setName or a getInfo the cache array starts with the entries it had
    before, in the same order. *)
Theorem cache_only_grows_until_cleared {World}
    (E : Collaborators World) (op : Op) (s : State World) :
  cache_wf s → op ≠ ClearCache →
  entries s `prefix_of` entries (step E op s).
Proof.
  intros Hwf Hop. destruct op as [self|self n|self|]; simpl; [..|done].
  - by apply CacheData_entries_prefix.
  - rewrite SetName_entries. by apply CacheData_entries_prefix.
  - rewrite GetInfo_state. by apply CacheData_entries_prefix.
Qed.

Lemma cache_only_grows_until_cleared_witness :
  entries loaded2 `prefix_of`
  entries (step collaborators (SetName W1 "A") loaded2).
Proof.
  apply (cache_only_grows_until_cleared collaborators (SetName W1 "A")
           loaded2).
  - apply wf_CacheData, wf_initial.
  - discriminate.
Defined.

(** X17. After any sequence of operations started from the empty cache,
    every entry of the cache array points to a live struct whose UUID,
    name and sync-account key strings are all set. (The two key buffers
    are not part of this: a key whose hex text decodes to no bytes is
    left NULL by [ABC_BUF_DUP].) *)
Theorem cached_records_are_complete {World}
    (E : Collaborators World) (w : World) (ops : list Op) (p : ptr) :
  p ∈ entries (runOps E ops (initial w)) →
  ∃ d, heap (runOps E ops (initial w)) !! p = Some d ∧ populated d.
Proof.
  intros Hp.
  by apply (wf_entries _ (wf_runOps E ops (initial w) (wf_initial w))).
Qed.

Lemma cached_records_are_complete_witness :
  ∃ d, heap (runOps collaborators
               [GetInfo W2; SetName W1 "A"; GetOrLoad W3] (initial disk2))
       !! 2 = Some d ∧ populated d.
Proof.
  apply (cached_records_are_complete collaborators disk2
           [GetInfo W2; SetName W1 "A"; GetOrLoad W3] 2).
  vm_compute. right. left.
Defined.

(** X18. After any sequence of operations started from the empty cache,
    the count and the array agree: the array pointer is NULL exactly when
    the count is zero, and otherwise the array has exactly
    [gWalletsCacheCount] slots. *)
Theorem count_matches_array {World}
    (E : Collaborators World) (w : World) (ops : list Op) :
  match gaWalletsCacheArray (runOps E ops (initial w)) with
  | Some arr =>
      length arr = gWalletsCacheCount (runOps E ops (initial w)) ∧
      0 < gWalletsCacheCount (runOps E ops (initial w))
  | None => gWalletsCacheCount (runOps E ops (initial w)) = 0
  end.
Proof. apply (wf_array _ (wf_runOps E ops (initial w) (wf_initial w))). Qed.

(** X19. [ABC_WalletCacheData] hands back a non-NULL pointer exactly when
    it reports [ABC_CC_Ok], and that pointer then leads to a live struct
    that carries the wallet's id and has its name and sync-account key
    strings set; so its callers may dereference the pointer and read the
    name after the status check. *)
Theorem load_pointer_is_live_iff_ok {World}
    (E : Collaborators World) (self : Wallet) (s s' : State World)
    (cc : tABC_CC) (p : ptr) :
  cache_wf s →
  ABC_WalletCacheData E self s = (cc, p, s') →
  (cc = ABC_CC_Ok ↔ p ≠ NULL) ∧
  (cc = ABC_CC_Ok →
   ∃ d, heap s' !! p = Some d ∧ szUUID d = Some (id self) ∧ populated d).
Proof.
  intros Hwf Heq. split.
  - split.
    + intros ->. by destruct (CacheData_ok E self s p s' Hwf Heq)
        as (_ & [_ Hn] & _).
    + intros Hp.
      destruct (CacheData_cases E self s)
        as [(r & Hr & Hc)|[(cc' & _ & _ & _ & Hc)|(d & _ & _ & Hc)]].
      * rewrite Hc in Heq. by simplify_eq.
      * rewrite Hc in Heq. by simplify_eq.
      * rewrite Hc in Heq by done. by simplify_eq.
  - intros ->.
    destruct (CacheData_ok E self s p s' Hwf Heq)
      as (_ & _ & _ & d & Hd & Hpop & Hid).
    eauto.
Qed.

Lemma load_pointer_is_live_iff_ok_witness :
  (ABC_CC_Ok = ABC_CC_Ok ↔ 1 ≠ NULL) ∧
  (ABC_CC_Ok = ABC_CC_Ok →
   ∃ d, heap loaded2 !! 1 = Some d ∧
        szUUID d = Some (id W2) ∧ populated d).
Proof.
  apply (load_pointer_is_live_iff_ok collaborators W2 (initial disk2)
           loaded2 ABC_CC_Ok 1).
  - apply wf_initial.
  - vm_compute. reflexivity.
Defined.

(** X20. After any sequence of operations started from the empty cache,
    no struct is entered twice in the cache array, so
    [ABC_WalletClearCache] frees each cached struct once. *)
Theorem cache_pointers_are_distinct {World}
    (E : Collaborators World) (w : World) (ops : list Op) :
  NoDup (entries (runOps E ops (initial w))).
Proof.
  eapply NoDup_fmap_1.
  apply (wf_nodup _ (wf_runOps E ops (initial w) (wf_initial w))).
Qed.

(** X21. Only [ABC_WalletSetName] changes the world: a sequence of
    getOrLoad, getInfo and clearCache operations leaves it, and so the
    disk, exactly as it was. *)
Theorem only_setName_writes {World}
    (E : Collaborators World) (ops : list Op) (s : State World) :
  Forall (λ op, ∀ self n, op ≠ SetName self n) ops →
  world (runOps E ops s) = world s.
Proof.
  revert s. induction ops as [|op ops IH]; intros s Hall; [done|].
  apply Forall_cons in Hall as [Hop Hall]. simpl.
  rewrite IH by done. destruct op as [self|self n|self|]; simpl.
  - apply CacheData_world.
  - by destruct (Hop self n).
  - apply GetInfo_world.
  - apply clear_world.
Qed.

Lemma only_setName_writes_witness :
  world (runOps collaborators [GetInfo W2; ClearCache; GetOrLoad W1]
           (initial disk2))
  = world (initial disk2).
Proof.
  apply (only_setName_writes collaborators
           [GetInfo W2; ClearCache; GetOrLoad W1] (initial disk2)).
  repeat constructor; discriminate.
Defined.

(** X22. A rename survives a cache clear when the store gives back what
    was written. Let [ABC_WalletSetName] succeed on a wallet whose cached
    master key is [mk]. If in the world it leaves the account still
    resolves to the same keys, the sync directory and the name file exist,
    the name file decrypts under [mk] to the very bytes the call encrypted
    under [mk], those bytes parse back to the new name, and the currency
    file can be read, then after [ABC_WalletClearCache] a fresh load
    succeeds with the new name. The call thus writes the name under the
    key, the file name and the field name that the load reads. *)
Theorem rename_survives_clear {World}
    (E : Collaborators World) (self : Wallet) (szNewName : string)
    (s s1 s2 : State World) (p : ptr)
    (mk seed : DataChunk) (sk szJSON : string) (num : Z) :
  cache_wf s →
  ABC_WalletCacheData E self s = (ABC_CC_Ok, p, s1) →
  (MK <$> heap s1 !! p) = Some (ABC_BUF_DUP None mk) →
  ABC_WalletSetName E self szNewName s = (ABC_CC_Ok, s2) →
  ABC_UtilCreateValueJSONString E szNewName JSON_WALLET_NAME_FIELD
    = (ABC_CC_Ok, szJSON) →
  resolveKeys E self (world s2) = inr (mk, seed, sk) →
  fileExists E (world s2) (syncDir self) = true →
  fileExists E (world s2)
    (String.append (syncDir self) WALLET_NAME_FILENAME) = true →
  (ABC_CryptoEncryptJSONFile E (world s1) (jsonBuf szJSON)
     (ABC_BUF_DUP None mk)
     ABC_CryptoType_AES256
     (String.append (syncDir self) WALLET_NAME_FILENAME)
   = (ABC_CC_Ok, world s2) →
   ABC_CryptoDecryptJSONFile E (world s2)
     (String.append (syncDir self) WALLET_NAME_FILENAME)
     (ABC_BUF_DUP None mk)
   = (ABC_CC_Ok, jsonBuf szJSON)) →
  ABC_UtilGetStringValueFromJSONString E (jsonBuf szJSON)
    JSON_WALLET_NAME_FIELD = (ABC_CC_Ok, szNewName) →
  loadCurrency E self (world s2) (ABC_BUF_DUP None mk) = inr num →
  ∃ p' s3,
    ABC_WalletCacheData E self (ABC_WalletClearCache s2)
    = (ABC_CC_Ok, p', s3) ∧
    heap s3 !! p'
    = Some (mkWalletData (Some (id self)) (Some szNewName) (Some sk) num
              (ABC_BUF_DUP None mk) (ABC_BUF_DUP None seed)).
Proof.
  intros Hwf Hload Hmk Hset Hjson Hkeys Hdir Hfile Hrt Hparse Hcur.
  pose proof (wf_SetName E self szNewName s Hwf) as Hwf2.
  rewrite Hset in Hwf2. simpl in Hwf2.
  assert (ABC_CryptoEncryptJSONFile E (world s1) (jsonBuf szJSON)
     (ABC_BUF_DUP None mk)
            ABC_CryptoType_AES256
            (String.append (syncDir self) WALLET_NAME_FILENAME)
          = (ABC_CC_Ok, world s2)) as Hwrite.
  { rewrite SetName_spec, Hload in Hset.
    rewrite decide_True in Hset by done. cbv zeta in Hset.
    rewrite Hjson in Hset. rewrite decide_True in Hset by done.
    assert (MK (deref (heap s1) p) = ABC_BUF_DUP None mk) as HMK.
    { unfold deref. destruct (heap s1 !! p); simpl in *; by simplify_eq. }
    rewrite HMK in Hset.
    destruct (ABC_CryptoEncryptJSONFile E _ _ _ _ _) as [cc3 w'].
    by simplify_eq. }
  specialize (Hrt Hwrite).
  destruct (load_succeeds E self (ABC_WalletClearCache s2)
              (mkWalletData (Some (id self)) (Some szNewName) (Some sk) num
                 (ABC_BUF_DUP None mk) (ABC_BUF_DUP None seed)))
    as (p' & s3 & Heq & _ & Hd).
  - by apply wf_ClearCache.
  - apply uncached_spec. by rewrite clear_entries.
  - rewrite clear_world. unfold loadRecord, loadMetadata, loadName.
    rewrite Hkeys, Hdir, Hfile, Hrt. simpl. rewrite Hparse. simpl.
    by rewrite Hcur.
  - by exists p', s3.
Qed.

Lemma rename_survives_clear_witness :
  ∃ p' s3,
    ABC_WalletCacheData collaborators W2
      (ABC_WalletClearCache
         (ABC_WalletSetName collaborators W2 "New" (initial disk2)).2)
    = (ABC_CC_Ok, p', s3) ∧
    heap s3 !! p'
    = Some (mkWalletData (Some (id W2)) (Some "New"%string)
              (Some "sync2"%string) (-1) (Some key2)
              (Some [Byte.x0a; Byte.x0b])).
Proof.
  apply (rename_survives_clear collaborators W2 "New" (initial disk2)
           loaded2 _ 1 key2 [Byte.x0a; Byte.x0b] "sync2"
           "walletName=New" (-1)).
  - apply wf_initial.
  - vm_compute. reflexivity.
  - vm_compute. reflexivity.
  - vm_compute. reflexivity.
  - vm_compute. reflexivity.
  - vm_compute. reflexivity.
  - vm_compute. reflexivity.
  - vm_compute. reflexivity.
  - intros _. vm_compute. reflexivity.
  - vm_compute. reflexivity.
  - vm_compute. reflexivity.
Defined.

(** X23. A successful load of a wallet that was not cached adds exactly
    one entry, at the end of the cache array, pointing to a struct at an
    address that was unused before; every other struct and the world are
    unchanged. *)
Theorem load_appends_one_entry {World}
    (E : Collaborators World) (self : Wallet) (s s' : State World)
    (p : ptr) :
  cache_wf s → uncached s (id self) →
  ABC_WalletCacheData E self s = (ABC_CC_Ok, p, s') →
  entries s' = entries s ++ [p] ∧
  gWalletsCacheCount s' = S (gWalletsCacheCount s) ∧
  heap s !! p = None ∧
  (∀ q, q ≠ p → heap s' !! q = heap s !! q) ∧
  world s' = world s.
Proof.
  intros Hwf Hun Heq.
  destruct (CacheData_cases E self s)
    as [(r & Hr & Hc)|[(cc' & _ & Hcc & _ & Hc)|(d & _ & _ & Hc)]].
  - by destruct (cached_uncached _ _ _ Hr Hun).
  - rewrite Hc in Heq. by simplify_eq.
  - rewrite Hc in Heq by done. simplify_eq.
    split_and!; [by rewrite entries_append | done | apply malloc_fresh
                | | done].
    intros q Hq. simpl. by rewrite lookup_insert_ne.
Qed.

Lemma load_appends_one_entry_witness :
  entries loaded21 = entries loaded2 ++ [2] ∧
  gWalletsCacheCount loaded21 = S (gWalletsCacheCount loaded2) ∧
  heap loaded2 !! 2 = None ∧
  (∀ q, q ≠ 2 → heap loaded21 !! q = heap loaded2 !! q) ∧
  world loaded21 = world loaded2.
Proof.
  apply (load_appends_one_entry collaborators W1 loaded2 loaded21 2).
  - apply wf_CacheData, wf_initial.
  - vm_compute. reflexivity.
  - vm_compute. reflexivity.
Defined.
